(** * clipboard-sync: the bidirectional macOS client

    A shallow embedding of [clipboard_sync] from
    [macos_client_bidirectional.py]: the reconnect loop, the three
    coroutines it gathers ([receive], [send], [heartbeat]) and the helpers
    they call.

    The program is an asyncio coroutine.  Control leaves it only at an
    [await]; between two awaits a body runs without interleaving.  The
    embedding follows that shape:

    - the mutable variables ([current_state], [last_clipboard],
      [reconnect_count], [consecutive_errors]) live in one record;
    - a body is a computation in a small monad with state, an effect log
      and Python exceptions;
    - whatever the outside world answers (the clipboard read, the result
      of a write, of [ws.send], of a ping, of a sleep) is an input of the
      step that consumes it;
    - the whole program is a transition system whose configurations are
      the await points of [clipboard_sync]; a gathered coroutine moves by
      whole rounds of its loop, each of which touches the shared
      variables in one piece, with no await in between.

    When [asyncio.gather] raises, the coroutines of that session that
    are still running are not cancelled: they go on beside the reconnect
    loop.  [step] follows the loop and the coroutines of the current
    session; [world_step] follows the ones left behind as well.

    The text of an inbound message is a string or absent, as the relay
    sends it.  What [set_clipboard] does with a value of another JSON
    type is decided by the clipboard library, outside this module.

    The menu-bar application ([ClipboardSyncApp]: its state queue and
    the timer that drains it) and the argument loop of the entry point
    are embedded beside the sync loop.

    Seconds are rationals.  Every delay computed from the default base
    delay is a dyadic rational with a few bits, so the binary
    floating-point value Python computes is that same number. *)

From Stdlib Require Import String ZArith QArith Qminmax List Bool Lia.
From Stdlib Require Import Floats Uint63.
Import ListNotations.

Local Open Scope string_scope.
Local Open Scope Z_scope.
Local Open Scope list_scope.

(** ** Configuration constants *)

Record config := {
  CHECK_INTERVAL : Q;          (* clipboard poll interval, seconds *)
  RECONNECT_DELAY : Q;         (* base reconnect delay, seconds *)
  MAX_RECONNECT_ATTEMPTS : Z;  (* 0 = unlimited *)
  gui_app : bool               (* whether the menu-bar application is set *)
}.

(** The values the module is shipped with. *)
Definition default_config : config :=
  {| CHECK_INTERVAL := 1 # 2; RECONNECT_DELAY := 5;
     MAX_RECONNECT_ATTEMPTS := 0; gui_app := false |}.

(** ** Data *)

(** [class ConnectionState] *)
Inductive ConnectionState := DISCONNECTED | CONNECTING | CONNECTED.

Definition ConnectionState_eqb (a b : ConnectionState) : bool :=
  match a, b with
  | DISCONNECTED, DISCONNECTED | CONNECTING, CONNECTING | CONNECTED, CONNECTED => true
  | _, _ => false
  end.

(** The exception classes the [except] clauses of the program tell apart.
    [OtherException] is any other subclass of [Exception] (a closed
    connection, an OS error, an [AttributeError]).  [CancelledError]
    derives from [BaseException] and is not caught by [except Exception]. *)
Inductive exn := JSONDecodeError | TimeoutError | OtherException | CancelledError.

(** [isinstance(e, Exception)] *)
Definition is_Exception (e : exn) : bool :=
  match e with CancelledError => false | _ => true end.

(** The envelope built by [send]: [{"type": .., "text": .., "source": ..}]. *)
Record envelope := { env_type : string; env_text : string; env_source : string }.

(** What [json.loads(message)] followed by the two [data.get] calls can
    see of an inbound frame.  The wire contract carries strings in both
    fields; [None] is an absent key.  A [text] of another JSON type is
    not represented. *)
Inductive frame :=
| Malformed                                      (* json.loads raises *)
| NonObject                                      (* valid JSON without .get *)
| Object (type : option string) (text : option string).

(** Lines written by [log]. *)
Inductive log_line :=
| LogState (s : ConnectionState)
| LogMonitorStarted | LogConnecting | LogConnectedOk | LogCancelled | LogMaxAttempts
| LogDisconnected (e : exn) | LogRetry (count : Z) (delay : Q)
| LogReceived (text : string) | LogInvalidJson | LogHandleFailed (e : exn)
| LogSent (text : string) | LogRecovering | LogSendFailed (e : exn)
| LogHeartbeatTimeout | LogHeartbeatFailed (e : exn)
| LogGetClipboardFailed | LogSetClipboardFailed.

(** Everything the program does to the outside world. *)
Inductive effect :=
| Log (l : log_line)
| GuiUpdate (s : ConnectionState)        (* gui_app.update_state *)
| SetClipboard (text : string)           (* set_clipboard(text) *)
| WsConnect                              (* websockets.connect(...) *)
| WsSend (e : envelope)                  (* ws.send(json.dumps(...)) *)
| WsPing                                 (* ws.ping() *)
| WsClose                                (* ws.close() *)
| Notify (title message : string)        (* send_notification *)
| Sleep (seconds : Q).                   (* asyncio.sleep *)

(** The variables of [clipboard_sync] and the global [current_state].
    [consecutive_errors] is the local of [send]. *)
Record state := {
  current_state : ConnectionState;
  last_clipboard : string;
  reconnect_count : Z;
  consecutive_errors : Z
}.

(** ** The monad: state, effect log, exceptions *)

Inductive result (A : Type) :=
| Ok (a : A)
| Raised (e : exn).
Arguments Ok {A} a.
Arguments Raised {A} e.

Definition M (A : Type) : Type := state -> result A * state * list effect.

Definition ret {A} (a : A) : M A := fun s => (Ok a, s, []).

Definition bind {A B} (m : M A) (k : A -> M B) : M B := fun s =>
  match m s with
  | (Ok a, s1, w1) => let '(r, s2, w2) := k a s1 in (r, s2, w1 ++ w2)
  | (Raised e, s1, w1) => (Raised e, s1, w1)
  end.

Declare Scope py_scope.
Delimit Scope py_scope with py.
Notation "x <- c ;; k" := (bind c (fun x => k))
  (at level 61, c at next level, right associativity) : py_scope.
Notation "c ;; k" := (bind c (fun _ => k))
  (at level 61, right associativity) : py_scope.
Local Open Scope py_scope.

Definition raise {A} (e : exn) : M A := fun s => (Raised e, s, []).
Definition emit (e : effect) : M unit := fun s => (Ok tt, s, [e]).
Definition gets {A} (f : state -> A) : M A := fun s => (Ok (f s), s, []).
Definition modify (f : state -> state) : M unit := fun s => (Ok tt, f s, []).

(** [try: m except ...: h].  [h e] is the body of the first clause that
    matches [e], or [None] when no clause does and [e] propagates. *)
Definition try_except {A} (m : M A) (h : exn -> option (M A)) : M A := fun s =>
  match m s with
  | (Ok a, s1, w1) => (Ok a, s1, w1)
  | (Raised e, s1, w1) =>
      match h e with
      | Some k => let '(r, s2, w2) := k s1 in (r, s2, w1 ++ w2)
      | None => (Raised e, s1, w1)
      end
  end.

(** An [await] whose outcome the environment decides: it completes
    ([None]) or raises. *)
Definition await (r : option exn) : M unit :=
  match r with None => ret tt | Some e => raise e end.

(** Projections of a run. *)
Definition outcome {A} (r : result A * state * list effect) : result A := fst (fst r).
Definition final {A} (r : result A * state * list effect) : state := snd (fst r).
Definition effects {A} (r : result A * state * list effect) : list effect := snd r.

(** ** State updates *)

Definition with_current_state (c : ConnectionState) (s : state) : state :=
  {| current_state := c; last_clipboard := last_clipboard s;
     reconnect_count := reconnect_count s; consecutive_errors := consecutive_errors s |}.
Definition with_last_clipboard (t : string) (s : state) : state :=
  {| current_state := current_state s; last_clipboard := t;
     reconnect_count := reconnect_count s; consecutive_errors := consecutive_errors s |}.
Definition with_reconnect_count (n : Z) (s : state) : state :=
  {| current_state := current_state s; last_clipboard := last_clipboard s;
     reconnect_count := n; consecutive_errors := consecutive_errors s |}.
Definition with_consecutive_errors (n : Z) (s : state) : state :=
  {| current_state := current_state s; last_clipboard := last_clipboard s;
     reconnect_count := reconnect_count s; consecutive_errors := n |}.

(** ** Helpers of the module *)

Definition log (l : log_line) : M unit := emit (Log l).

(** [set_state]: acts only when the state changes. *)
Definition set_state (gui : bool) (new_state : ConnectionState) : M unit :=
  cur <- gets current_state ;;
  if ConnectionState_eqb cur new_state then ret tt
  else
    modify (with_current_state new_state) ;;
    log (LogState new_state) ;;
    if gui then emit (GuiUpdate new_state) else ret tt.

(** [get_clipboard()]: the text read, or [None] (logged) when both
    readers fail. *)
Definition get_clipboard (read : option string) : M (option string) :=
  match read with
  | Some t => ret (Some t)
  | None => log LogGetClipboardFailed ;; ret None
  end.

(** [set_clipboard(text)]: one write; [True] when it succeeds, [False]
    (logged) when both writers fail. *)
Definition set_clipboard (ok : bool) (text : string) : M bool :=
  emit (SetClipboard text) ;;
  if ok then ret true else log LogSetClipboardFailed ;; ret false.

(** [send_notification] swallows its own errors. *)
Definition send_notification (title message : string) : M unit :=
  emit (Notify title message).

(** [await asyncio.sleep(seconds)]: it completes, or the coroutine is
    cancelled while it sleeps. *)
Definition sleep (seconds : Q) (cancelled : bool) : M unit :=
  emit (Sleep seconds) ;;
  if cancelled then raise CancelledError else ret tt.

(** Truth value of a Python string: non-empty. *)
Definition truthy (t : string) : bool := negb (t =? "")%string.

(** The notification texts. *)
Definition title := "剪贴板同步".
Definition msg_connected := "已连接到服务器".
Definition msg_stopped := "连接失败，已停止重连".
Definition msg_reconnecting := "连接断开，正在重连...".

(** ** The three coroutines of a session *)

(** A loop body either goes round again or leaves the loop. *)
Inductive loop_control := Continue | Break.

(** *** [receive] *)

(** [data.get("type") == "clipboard"] *)
Definition is_clipboard (type : option string) : bool :=
  match type with
  | Some t => (t =? "clipboard")%string
  | None => false
  end.

(** The body of [async for message in ws], for one message.
    [write_ok] is what [set_clipboard] answers if it is called. *)
Definition receive_message (message : frame) (write_ok : bool) : M unit :=
  try_except
    match message with
    | Malformed => raise JSONDecodeError
    | NonObject => raise OtherException
    | Object type text =>
        if is_clipboard type then
          let text := match text with Some t => t | None => "" end in
          last <- gets last_clipboard ;;
          if truthy text && negb (text =? last)%string then
            ok <- set_clipboard write_ok text ;;
            if ok then
              modify (with_last_clipboard text) ;;
              log (LogReceived text)
            else ret tt
          else ret tt
        else ret tt
    end
    (fun e =>
       match e with
       | JSONDecodeError => Some (log LogInvalidJson)
       | e => if is_Exception e then Some (log (LogHandleFailed e)) else None
       end).

(** What the iterator [ws] yields next: a message, its end (the
    connection closed normally), or an exception. *)
Inductive recv_input :=
| Message (message : frame) (write_ok : bool)
| StopIteration
| IterationError (e : exn).

Definition receive_iteration (i : recv_input) : M loop_control :=
  match i with
  | Message message write_ok => receive_message message write_ok ;; ret Continue
  | StopIteration => ret Break
  | IterationError e => raise e
  end.

(** *** [send] *)

(** The answers of the outside world during one round of [send]. *)
Record poll_input := {
  clipboard_read : option string;   (* get_clipboard() *)
  send_result : option exn;         (* await ws.send(...) *)
  recover_sleep : bool;             (* asyncio.sleep(2) cancelled *)
  interval_sleep : bool             (* asyncio.sleep(CHECK_INTERVAL) cancelled *)
}.

Definition clipboard_envelope (text : string) : envelope :=
  {| env_type := "clipboard"; env_text := text; env_source := "macos" |}.

Definition ws_send (e : envelope) (r : option exn) : M unit :=
  emit (WsSend e) ;; await r.

(** The [try] block of [send]. *)
Definition send_try (i : poll_input) : M unit :=
  current <- get_clipboard (clipboard_read i) ;;
  match current with
  | Some current =>
      modify (with_consecutive_errors 0) ;;
      last <- gets last_clipboard ;;
      if truthy current && negb (current =? last)%string then
        modify (with_last_clipboard current) ;;
        ws_send (clipboard_envelope current) (send_result i) ;;
        log (LogSent current)
      else ret tt
  | None =>
      modify (fun s => with_consecutive_errors (consecutive_errors s + 1) s) ;;
      n <- gets consecutive_errors ;;
      if 5 <=? n then
        log LogRecovering ;;
        modify (with_consecutive_errors 0) ;;
        sleep 2 (recover_sleep i)
      else ret tt
  end.

Section Configured.

Variable cfg : config.

(** One round of the [while True] of [send]. *)
Definition send_iteration (i : poll_input) : M loop_control :=
  try_except (send_try i)
    (fun e => if is_Exception e then Some (log (LogSendFailed e)) else None) ;;
  sleep (CHECK_INTERVAL cfg) (interval_sleep i) ;;
  ret Continue.

(** *** [heartbeat] *)

Record heartbeat_input := {
  ping_result : option exn;    (* await ws.ping() *)
  pong_result : option exn;    (* await asyncio.wait_for(pong, timeout=10) *)
  close_result : option exn;   (* await ws.close() *)
  pause_result : bool          (* asyncio.sleep(30) cancelled *)
}.

Definition heartbeat_iteration (i : heartbeat_input) : M loop_control :=
  c <- try_except
         (emit WsPing ;;
          await (ping_result i) ;;
          await (pong_result i) ;;
          ret Continue)
         (fun e =>
            match e with
            | TimeoutError =>
                Some (log LogHeartbeatTimeout ;;
                      set_state (gui_app cfg) DISCONNECTED ;;
                      emit WsClose ;;
                      await (close_result i) ;;
                      ret Break)
            | e =>
                if is_Exception e then
                  Some (log (LogHeartbeatFailed e) ;;
                        set_state (gui_app cfg) DISCONNECTED ;;
                        ret Break)
                else None
            end) ;;
  match c with
  | Break => ret Break
  | Continue => sleep 30 (pause_result i) ;; ret Continue
  end.

(** ** The reconnect loop of [clipboard_sync] *)

(** A gathered coroutine is still running or has returned. *)
Inductive task_status := Running | Returned.

Inductive exit_reason :=
| BreakCancelled         (* except asyncio.CancelledError: break *)
| BreakMaxAttempts       (* reconnect budget exhausted: break *)
| Escaped (e : exn).     (* an exception left clipboard_sync *)

(** The await points of [clipboard_sync]. *)
Inductive location :=
| Connecting                                        (* websockets.connect *)
| InSession (receive send heartbeat : task_status)  (* asyncio.gather *)
| Backoff (delay : Q)                               (* asyncio.sleep(delay) *)
| Exited (r : exit_reason).

Record machine := { pc : location; vars : state }.

(** [delay = min(RECONNECT_DELAY * (1.5 ** min(reconnect_count - 1, 5)), 60)] *)
Definition reconnect_delay (reconnect_count : Z) : Q :=
  Qmin (RECONNECT_DELAY cfg * (3 # 2) ^ Z.min (reconnect_count - 1) 5) 60.

(** Top of the [while True]: up to the call of [websockets.connect]. *)
Definition loop_head : M location :=
  set_state (gui_app cfg) CONNECTING ;;
  log LogConnecting ;;
  emit WsConnect ;;
  ret Connecting.

(** Body of the [async with], up to [asyncio.gather]; [send] starts with
    [consecutive_errors = 0]. *)
Definition on_connected : M location :=
  set_state (gui_app cfg) CONNECTED ;;
  modify (with_reconnect_count 0) ;;
  log LogConnectedOk ;;
  send_notification title msg_connected ;;
  modify (with_consecutive_errors 0) ;;
  ret (InSession Running Running Running).

(** [MAX_RECONNECT_ATTEMPTS > 0 and reconnect_count > MAX_RECONNECT_ATTEMPTS] *)
Definition attempts_exhausted (reconnect_count : Z) : bool :=
  (0 <? MAX_RECONNECT_ATTEMPTS cfg) && (MAX_RECONNECT_ATTEMPTS cfg <? reconnect_count).

(** [except Exception as e] *)
Definition on_exception (e : exn) : M location :=
  set_state (gui_app cfg) DISCONNECTED ;;
  modify (fun s => with_reconnect_count (reconnect_count s + 1) s) ;;
  n <- gets reconnect_count ;;
  if attempts_exhausted n then
    log LogMaxAttempts ;;
    send_notification title msg_stopped ;;
    ret (Exited BreakMaxAttempts)
  else
    let delay := reconnect_delay n in
    log (LogDisconnected e) ;;
    log (LogRetry n delay) ;;
    (if n =? 1 then send_notification title msg_reconnecting else ret tt) ;;
    emit (Sleep delay) ;;
    ret (Backoff delay).

(** The two [except] clauses of the outer [try]. *)
Definition handle (e : exn) : M location :=
  match e with
  | CancelledError => log LogCancelled ;; ret (Exited BreakCancelled)
  | e => on_exception e
  end.

(** Leaving the [async with] block closes the connection. *)
Definition leave_session (k : M location) : M location :=
  emit WsClose ;; k.

(** [asyncio.gather] returns once all three coroutines have returned;
    the [async with] block ends and the loop goes round. *)
Definition gather_next (l : location) : M location :=
  match l with
  | InSession Returned Returned Returned => leave_session loop_head
  | _ => ret l
  end.

(** One round of a gathered coroutine, seen from the [await] on
    [asyncio.gather]: an exception of the coroutine is raised there at
    once, leaves the [async with] block and lands in the [except]
    clauses.  (The coroutines that are still running at that moment are
    followed by [world_step].) *)
Definition session_step (task : M loop_control) (k : task_status -> location) : M location :=
  fun s =>
    match task s with
    | (Ok Continue, s1, w1) => (Ok (k Running), s1, w1)
    | (Ok Break, s1, w1) =>
        let '(r, s2, w2) := gather_next (k Returned) s1 in (r, s2, w1 ++ w2)
    | (Raised e, s1, w1) =>
        let '(r, s2, w2) := leave_session (handle e) s1 in (r, s2, w1 ++ w2)
    end.

(** What the outside world does next. *)
Inductive event :=
| ConnectResult (r : option exn)      (* websockets.connect completes or raises *)
| ReceiveStep (i : recv_input)        (* receive() runs one round *)
| SendStep (i : poll_input)           (* send() runs one round *)
| HeartbeatStep (i : heartbeat_input) (* heartbeat() runs one round *)
| CancelGather                        (* clipboard_sync cancelled in gather *)
| SleepResult (cancelled : bool).     (* the backoff sleep completes or is cancelled *)

Definition run_main (m : M location) (s : state) : machine * list effect :=
  match m s with
  | (Ok l, s1, w) => ({| pc := l; vars := s1 |}, w)
  | (Raised e, s1, w) => ({| pc := Exited (Escaped e); vars := s1 |}, w)
  end.

(** One transition.  An event the program is not waiting for changes
    nothing. *)
Definition step (m : machine) (ev : event) : machine * list effect :=
  match pc m, ev with
  | Connecting, ConnectResult None => run_main on_connected (vars m)
  | Connecting, ConnectResult (Some e) => run_main (handle e) (vars m)
  | InSession Running s h, ReceiveStep i =>
      run_main (session_step (receive_iteration i) (fun t => InSession t s h)) (vars m)
  | InSession r Running h, SendStep i =>
      run_main (session_step (send_iteration i) (fun t => InSession r t h)) (vars m)
  | InSession r s Running, HeartbeatStep i =>
      run_main (session_step (heartbeat_iteration i) (fun t => InSession r s t)) (vars m)
  | InSession _ _ _, CancelGather =>
      run_main (leave_session (handle CancelledError)) (vars m)
  | Backoff _, SleepResult false => run_main loop_head (vars m)
  | Backoff _, SleepResult true =>
      ({| pc := Exited (Escaped CancelledError); vars := vars m |}, [])
  | _, _ => (m, [])
  end.

Fixpoint run (m : machine) (evs : list event) : machine * list effect :=
  match evs with
  | [] => (m, [])
  | ev :: evs =>
      let '(m1, w1) := step m ev in
      let '(m2, w2) := run m1 evs in
      (m2, w1 ++ w2)
  end.

(** [clipboard_sync] from its first line to the first [websockets.connect].
    [initial_read] is the answer of the first [get_clipboard()],
    [entry_state] the value of the global [current_state]. *)
Definition clipboard_sync (initial_read : option string) (entry_state : ConnectionState)
  : machine * list effect :=
  run_main
    (current <- get_clipboard initial_read ;;
     modify (with_last_clipboard (match current with Some t => t | None => "" end)) ;;
     log LogMonitorStarted ;;
     loop_head)
    {| current_state := entry_state; last_clipboard := "";
       reconnect_count := 0; consecutive_errors := 0 |}.

End Configured.

(** ** Reading an effect log *)

(** The texts passed to [set_clipboard], in order. *)
Definition writes (w : list effect) : list string :=
  flat_map (fun e => match e with SetClipboard t => [t] | _ => [] end) w.

(** The envelopes passed to [ws.send], in order. *)
Definition sends (w : list effect) : list envelope :=
  flat_map (fun e => match e with WsSend v => [v] | _ => [] end) w.

(** Number of calls of [websockets.connect]. *)
Definition connects (w : list effect) : nat :=
  length (filter (fun e => match e with WsConnect => true | _ => false end) w).

(** Number of notifications carrying [message]. *)
Definition notifications (message : string) (w : list effect) : nat :=
  length (filter (fun e => match e with
                           | Notify _ m => (m =? message)%string
                           | _ => false
                           end) w).

(** A clipboard-type frame carrying [text]. *)
Definition clipboard_frame (text : string) : frame :=
  Object (Some "clipboard") (Some text).

(** A round of [send] in which the clipboard is read as [text]. *)
Definition reads (i : poll_input) (text : string) : Prop :=
  clipboard_read i = Some text.

(** The backoff sleep elapses and the next [websockets.connect] raises
    [e]. *)
Definition retry_fails (e : exn) : list event :=
  [SleepResult false; ConnectResult (Some e)].

(** A streak of consecutive failures: a first failing event, after which
    every retry fails too. *)
Definition streak (first : event) (es : list exn) : list event :=
  first :: flat_map retry_fails es.

(** The event [ev] makes the session or the connection attempt of [m]
    fail with the exception [e]: [websockets.connect] raises it, or the
    inbound stream does and [receive] with it. *)
Definition fails_with (m : machine) (ev : event) (e : exn) : Prop :=
  (pc m = Connecting /\ ev = ConnectResult (Some e)) \/
  (exists s h, pc m = InSession Running s h /\ ev = ReceiveStep (IterationError e)).

(** What each await point of [clipboard_sync] knows about the variables. *)
Definition coherent (m : machine) : Prop :=
  match pc m with
  | Connecting => current_state (vars m) = CONNECTING
  | InSession _ _ _ => reconnect_count (vars m) = 0
  | Backoff _ => current_state (vars m) = DISCONNECTED
  | Exited _ => current_state (vars m) = CONNECTED -> reconnect_count (vars m) = 0
  end.

(** A gathered coroutine touches neither the counter nor the connection
    attempts nor the notifications. *)
Definition task_frame (t : M loop_control) : Prop :=
  forall s,
    reconnect_count (final (t s)) = reconnect_count s /\
    connects (effects (t s)) = 0%nat /\
    forall msg, notifications msg (effects (t s)) = 0%nat.

(** A run of one of the bodies of [clipboard_sync] that ends at a
    coherent await point and, when the budget is unlimited, neither stops
    the loop nor announces that it has. *)
Definition sound (cfg : config) (r : result location * state * list effect) : Prop :=
  exists l,
    outcome r = Ok l /\
    coherent {| pc := l; vars := final r |} /\
    (MAX_RECONNECT_ATTEMPTS cfg = 0 ->
     l <> Exited BreakMaxAttempts /\ notifications msg_stopped (effects r) = 0%nat).

(** A round of [send] during which a [CancelledError] is delivered to
    one of its awaits. *)
Definition send_cancelled (i : poll_input) : bool :=
  match send_result i with Some CancelledError => true | _ => false end
  || recover_sleep i || interval_sleep i.

(** A round of [send] that gets to an await at which a [CancelledError]
    is delivered: [ws.send] when a new text is sent, the recovery sleep
    at the fifth failed read in a row, the poll sleep that ends the
    round (reached unless one of the former two raised it already). *)
Definition cancelled_at_await (i : poll_input) (s : state) : bool :=
  match clipboard_read i with
  | Some current =>
      if truthy current && negb (current =? last_clipboard s)%string then
        match send_result i with
        | Some CancelledError => true
        | _ => interval_sleep i
        end
      else interval_sleep i
  | None =>
      if 5 <=? consecutive_errors s + 1 then recover_sleep i || interval_sleep i
      else interval_sleep i
  end.

(** Events of a session whose [heartbeat] has returned, in which no
    coroutine raises out of its loop and nobody cancels: rounds of [send]
    without cancellation, messages and the normal end of the inbound
    stream.  (Events addressed to a coroutine that has returned, or to
    another await point, are ignored by [step].) *)
Definition quiet (ev : event) : bool :=
  match ev with
  | SendStep i => negb (send_cancelled i)
  | ReceiveStep (Message _ _) | ReceiveStep StopIteration => true
  | ReceiveStep (IterationError _) => false
  | HeartbeatStep _ => true
  | CancelGather => false
  | ConnectResult _ | SleepResult _ => true
  end.

(** ** The delay in binary floating point

    Python evaluates the delay formula on doubles.  The same formula on
    the kernel's binary64 numbers, with the power taken by repeated
    multiplication (every product that occurs is exact), is kept beside
    the rational one to compare the two. *)

Definition float_pow (x : float) (k : nat) : float :=
  Nat.iter k (fun y => PrimFloat.mul y x) 1%float.

(** [min(a, b)] on numbers: [b] when [b < a], else [a]. *)
Definition float_min (a b : float) : float :=
  if PrimFloat.ltb b a then b else a.

Definition reconnect_delay_float (reconnect_count : Z) : float :=
  float_min
    (PrimFloat.mul 5%float
       (float_pow 1.5%float (Z.to_nat (Z.min (reconnect_count - 1) 5))))
    60%float.

(** The double nearest to a rational with small numerator and
    denominator. *)
Definition float_of_Q (q : Q) : float :=
  PrimFloat.div (PrimFloat.of_uint63 (Uint63.of_Z (Qnum q)))
                (PrimFloat.of_uint63 (Uint63.of_Z (Zpos (Qden q)))).

(** ** Reading more of an effect log *)

(** The states handed to [gui_app.update_state], in order. *)
Definition gui_updates (w : list effect) : list ConnectionState :=
  flat_map (fun e => match e with GuiUpdate s => [s] | _ => [] end) w.

(** Number of times [send] announced a recovery pause. *)
Definition recoveries (w : list effect) : nat :=
  length (filter (fun e => match e with Log LogRecovering => true | _ => false end) w).

(** The last state of a list of updates, or [shown] when there is none. *)
Definition display (shown : ConnectionState) (l : list ConnectionState) : ConnectionState :=
  fold_left (fun _ s => s) l shown.

(** What may be sent and written: clipboard envelopes from [macos] with
    a non-empty text, and non-empty texts. *)
Definition well_formed (e : effect) : Prop :=
  match e with
  | WsSend v => env_type v = "clipboard" /\ env_source v = "macos" /\ env_text v <> ""
  | SetClipboard t => t <> ""
  | _ => True
  end.

(** A round of [heartbeat] whose ping is answered in time. *)
Definition pong_received (i : heartbeat_input) : bool :=
  match ping_result i, pong_result i with
  | None, None => negb (pause_result i)
  | _, _ => false
  end.

(** Events of a session in which nothing ends: a message arrives, [send]
    goes round without being cancelled (its send may fail), a ping is
    answered. *)
Definition healthy (ev : event) : bool :=
  match ev with
  | ReceiveStep (Message _ _) => true
  | SendStep i => negb (send_cancelled i)
  | HeartbeatStep i => pong_received i
  | _ => false
  end.

(** The delivery of a [CancelledError] to the await at which
    [clipboard_sync] is waiting. *)
Definition cancel_event (l : location) : event :=
  match l with
  | Connecting => ConnectResult (Some CancelledError)
  | InSession _ _ _ => CancelGather
  | Backoff _ => SleepResult true
  | Exited _ => CancelGather
  end.

(** A round of [send] in which [get_clipboard()] fails and nothing is
    cancelled. *)
Definition failed_read : poll_input :=
  {| clipboard_read := None; send_result := None;
     recover_sleep := false; interval_sleep := false |}.

(** A frame that [receive] takes for a clipboard update. *)
Definition is_clipboard_frame (message : frame) : bool :=
  match message with
  | Object type _ => is_clipboard type
  | _ => false
  end.

(** ** The menu-bar application

    [ClipboardSyncApp]: the state queue filled by [update_state] from the
    sync thread and drained by the timer on the main thread, the icon
    and the title of the status item.  The log lines of these methods
    are not recorded, and the setters of the menu-bar library are taken
    to succeed. *)

Record ClipboardSyncApp := {
  state_queue : list ConnectionState;
  icon : string;
  status_title : string
}.

(** The dictionary [status_text] of [_check_state_queue]. *)
Definition status_text (state : ConnectionState) : string :=
  match state with
  | CONNECTED => "状态: 已连接 ✓"
  | CONNECTING => "状态: 连接中..."
  | DISCONNECTED => "状态: 未连接"
  end.

(** [update_state]: [self.state_queue.put(state)]. *)
Definition update_state (state : ConnectionState) (app : ClipboardSyncApp)
  : ClipboardSyncApp :=
  {| state_queue := state_queue app ++ [state];
     icon := icon app; status_title := status_title app |}.

(** The [while not self.state_queue.empty()] loop: the last state taken
    from the queue, [None] when the queue was empty. *)
Definition drain (queue : list ConnectionState) : option ConnectionState :=
  fold_left (fun _ state => Some state) queue None.

Section MenuBar.

(** [self.icons], and [os.path.exists]. *)
Variable icons : ConnectionState -> string.
Variable path_exists : string -> bool.

(** [__init__]: the disconnected icon, the title "not connected", an
    empty queue. *)
Definition new_app : ClipboardSyncApp :=
  {| state_queue := []; icon := icons DISCONNECTED;
     status_title := status_text DISCONNECTED |}.

(** [_check_state_queue], called by the timer. *)
Definition check_state_queue (app : ClipboardSyncApp) : ClipboardSyncApp :=
  match drain (state_queue app) with
  | None => {| state_queue := []; icon := icon app; status_title := status_title app |}
  | Some state =>
      let new_icon := icons state in
      {| state_queue := [];
         icon := if truthy new_icon && path_exists new_icon then new_icon else icon app;
         status_title := status_text state |}
  end.

(** What happens to the application: the sync thread puts a state, or
    the timer fires. *)
Inductive gui_event := Put (state : ConnectionState) | Tick.

Definition app_step (app : ClipboardSyncApp) (ev : gui_event) : ClipboardSyncApp :=
  match ev with
  | Put state => update_state state app
  | Tick => check_state_queue app
  end.

Definition app_run (app : ClipboardSyncApp) (evs : list gui_event) : ClipboardSyncApp :=
  fold_left app_step evs app.

(** The states put by a list of application events, in order. *)
Definition puts (evs : list gui_event) : list ConnectionState :=
  flat_map (fun ev => match ev with Put s => [s] | Tick => [] end) evs.

(** The application is about to show [state]: it is the last state
    waiting in the queue, or the queue is empty and the title shows it
    (and so does the icon, when every icon file is there). *)
Definition shows (state : ConnectionState) (app : ClipboardSyncApp) : Prop :=
  match drain (state_queue app) with
  | Some s => s = state
  | None =>
      status_title app = status_text state /\
      ((forall s, truthy (icons s) && path_exists (icons s) = true) ->
       icon app = icons state)
  end.

End MenuBar.

(** ** The command line *)

(** What the entry point of the module derives from [sys.argv[1:]]. *)
Record options := { gui_mode : bool; SERVER_IP : string }.

Definition default_options : options :=
  {| gui_mode := false; SERVER_IP := "8.146.198.121" |}.

(** [arg == "--gui" or arg == "-g"] *)
Definition is_gui_flag (arg : string) : bool :=
  (arg =? "--gui")%string || (arg =? "-g")%string.

(** The body of [for arg in args]. *)
Definition parse_arg (o : options) (arg : string) : options :=
  if is_gui_flag arg then {| gui_mode := true; SERVER_IP := SERVER_IP o |}
  else if negb (String.prefix "-" arg) then {| gui_mode := gui_mode o; SERVER_IP := arg |}
  else o.

Definition parse_args (args : list string) : options :=
  fold_left parse_arg args default_options.

(** ** The coroutines a failed session leaves behind

    [asyncio.gather] raises as soon as one of its coroutines raises, and
    does not cancel the other two.  When the [except Exception] clause
    keeps the loop going, they go on running beside it: a [send] polls
    the clipboard and assigns [last_clipboard], a [heartbeat] pings and
    calls [set_state] when a ping fails.  [ws] is a variable of
    [clipboard_sync], so what they send and ping goes to the connection
    that variable holds at that moment; a [receive] stays with the
    stream it was iterating.  Once [clipboard_sync] has ended, the event
    loop runs none of them any more.

    [step] follows the loop and the coroutines of the current session.
    A [world] adds the ones left behind; each [send] among them has a
    [consecutive_errors] of its own. *)

Record world := {
  main : machine;                (* the loop and its current session *)
  left_receivers : nat;          (* receive() coroutines left behind *)
  left_senders : list Z;         (* send() coroutines left behind: their consecutive_errors *)
  left_heartbeats : nat          (* heartbeat() coroutines left behind *)
}.

Definition running (t : task_status) : nat :=
  match t with Running => 1%nat | Returned => 0%nat end.

(** The coroutines of the session of [m] that are still running when
    the round [ev] of one of them raises, [asyncio.gather] with it, and
    the [except Exception] clause goes to sleep before the next attempt
    ([m'] is where the loop is then). *)
Definition left_behind (m m' : machine) (ev : event) : nat * list Z * nat :=
  match pc m, pc m' with
  | InSession r s h, Backoff _ =>
      let sender := repeat (consecutive_errors (vars m)) (running s) in
      match ev with
      | ReceiveStep _ => (0%nat, sender, running h)
      | SendStep _ => (running r, [], running h)
      | HeartbeatStep _ => (running r, sender, 0%nat)
      | _ => (0%nat, [], 0%nat)
      end
  | _, _ => (0%nat, [], 0%nat)
  end.

(** The event loop runs as long as [clipboard_sync] has not ended. *)
Definition event_loop_runs (l : location) : bool :=
  match l with Exited _ => false | _ => true end.

Inductive world_event :=
| Current (ev : event)                 (* the loop or its current session moves *)
| LeftReceive (i : recv_input)         (* a receive() left behind runs one round *)
| LeftSend (k : nat) (i : poll_input)  (* the k-th send() left behind runs one round *)
| LeftHeartbeat (i : heartbeat_input). (* a heartbeat() left behind runs one round *)

(** The coroutine goes round its loop again; it is gone when it has
    returned or raised (nobody awaits it any more). *)
Definition goes_on (o : result loop_control) : bool :=
  match o with Ok Continue => true | _ => false end.

Definition world_step (cfg : config) (w : world) (ev : world_event) : world * list effect :=
  match ev with
  | Current ev =>
      let '(m', out) := step cfg (main w) ev in
      let '(r, s, h) := left_behind (main w) m' ev in
      ({| main := m';
          left_receivers := left_receivers w + r;
          left_senders := left_senders w ++ s;
          left_heartbeats := left_heartbeats w + h |}, out)
  | LeftReceive i =>
      match event_loop_runs (pc (main w)), left_receivers w with
      | true, S n =>
          let '(o, s1, out) := receive_iteration i (vars (main w)) in
          ({| main := {| pc := pc (main w); vars := s1 |};
              left_receivers := if goes_on o then S n else n;
              left_senders := left_senders w;
              left_heartbeats := left_heartbeats w |}, out)
      | _, _ => (w, [])
      end
  | LeftSend k i =>
      match event_loop_runs (pc (main w)), nth_error (left_senders w) k with
      | true, Some count =>
          let mine := consecutive_errors (vars (main w)) in
          let '(o, s1, out) :=
            send_iteration cfg i (with_consecutive_errors count (vars (main w))) in
          ({| main := {| pc := pc (main w); vars := with_consecutive_errors mine s1 |};
              left_receivers := left_receivers w;
              left_senders :=
                firstn k (left_senders w)
                ++ (if goes_on o then [consecutive_errors s1] else [])
                ++ skipn (S k) (left_senders w);
              left_heartbeats := left_heartbeats w |}, out)
      | _, _ => (w, [])
      end
  | LeftHeartbeat i =>
      match event_loop_runs (pc (main w)), left_heartbeats w with
      | true, S n =>
          let '(o, s1, out) := heartbeat_iteration cfg i (vars (main w)) in
          ({| main := {| pc := pc (main w); vars := s1 |};
              left_receivers := left_receivers w;
              left_senders := left_senders w;
              left_heartbeats := if goes_on o then S n else n |}, out)
      | _, _ => (w, [])
      end
  end.

Fixpoint world_run (cfg : config) (w : world) (evs : list world_event)
  : world * list effect :=
  match evs with
  | [] => (w, [])
  | ev :: evs =>
      let '(w1, out1) := world_step cfg w ev in
      let '(w2, out2) := world_run cfg w1 evs in
      (w2, out1 ++ out2)
  end.

(** The program at [m] with no coroutine left behind. *)
Definition world_start (m : machine) : world :=
  {| main := m; left_receivers := 0; left_senders := []; left_heartbeats := 0 |}.

(** A round of [heartbeat] whose ping raises. *)
Definition failing_ping : heartbeat_input :=
  {| ping_result := Some OtherException; pong_result := None;
     close_result := None; pause_result := false |}.

(** ** Relations between the variables before a piece of code, what it
    does, and the variables after it *)

(** [c] keeps to [R] from every state. *)
Definition respects {A} (R : state -> list effect -> state -> Prop) (c : M A) : Prop :=
  forall s, R s (effects (c s)) (final (c s)).

(** With the menu-bar application set, the last state handed to it is
    the connection state. *)
Definition tracks_gui (cfg : config) (s : state) (w : list effect) (s' : state) : Prop :=
  gui_app cfg = true -> display (current_state s) (gui_updates w) = current_state s'.

(** Only well-formed envelopes and texts go out. *)
Definition emits_well_formed (s : state) (w : list effect) (s' : state) : Prop :=
  Forall well_formed w.

(** The failure count of [send] stays below five. *)
Definition keeps_error_count (s : state) (w : list effect) (s' : state) : Prop :=
  0 <= consecutive_errors s < 5 -> 0 <= consecutive_errors s' < 5.

(** The snapshot is what it was, or a text written to the clipboard, or
    the text of an envelope sent. *)
Definition snapshot_from_traffic (s : state) (w : list effect) (s' : state) : Prop :=
  last_clipboard s' = last_clipboard s \/
  In (last_clipboard s') (writes w) \/
  In (last_clipboard s') (map env_text (sends w)).

Definition orderly (cfg : config) (s : state) (w : list effect) (s' : state) : Prop :=
  tracks_gui cfg s w s' /\ emits_well_formed s w s' /\
  keeps_error_count s w s' /\ snapshot_from_traffic s w s'.

(** Every [send], of the current session or left behind, has its count
    of failures below five. *)
Definition counts_in_range (w : world) : Prop :=
  0 <= consecutive_errors (vars (main w)) < 5 /\
  Forall (fun count => 0 <= count < 5) (left_senders w).

(** ** What a transition announces *)

(** The loop has stopped because the reconnect budget is exhausted. *)
Definition stopped_for_budget (l : location) : bool :=
  match l with
  | Exited BreakMaxAttempts => true
  | _ => false
  end.

(** The event completes a connection attempt successfully. *)
Definition connects_now (m : machine) (ev : event) : bool :=
  match pc m, ev with
  | Connecting, ConnectResult None => true
  | _, _ => false
  end.

(** A run of one of the bodies of [clipboard_sync] other than the one
    entered on a successful connection: it does not announce a
    connection, and announces the stop exactly when it stops the loop. *)
Definition announces (r : result location * state * list effect) : Prop :=
  exists l,
    outcome r = Ok l /\
    notifications msg_connected (effects r) = 0%nat /\
    notifications msg_stopped (effects r) = (if stopped_for_budget l then 1%nat else 0%nat).

(** ** The counter and the backoff sleep *)

(** The counter is never negative, and while the loop sleeps between two
    attempts it sleeps for the delay the formula gives at the counter. *)
Definition paced (cfg : config) (m : machine) : Prop :=
  0 <= reconnect_count (vars m) /\
  match pc m with
  | Backoff d => d = reconnect_delay cfg (reconnect_count (vars m)) /\
                 1 <= reconnect_count (vars m)
  | _ => True
  end.

(** A run of one of the bodies of [clipboard_sync] that ends paced. *)
Definition ends_paced (cfg : config) (r : result location * state * list effect) : Prop :=
  exists l, outcome r = Ok l /\ paced cfg {| pc := l; vars := final r |}.

(** * Properties *)

(** ** Receiver *)

Lemma truthy_nonempty (t : string) : t <> "" -> truthy t = true.
Proof.
  intros H. unfold truthy. destruct (String.eqb_spec t ""); [contradiction | reflexivity].
Qed.

Lemma receive_message_same (s : state) (ok : bool) :
  receive_message (clipboard_frame (last_clipboard s)) ok s = (Ok tt, s, []).
Proof.
  unfold receive_message, clipboard_frame, try_except, bind, gets. simpl.
  rewrite String.eqb_refl, andb_false_r. reflexivity.
Qed.

Lemma receive_message_new (s : state) (T : string) (ok : bool) :
  T <> "" -> T <> last_clipboard s ->
  receive_message (clipboard_frame T) ok s =
  if ok then (Ok tt, with_last_clipboard T s, [SetClipboard T; Log (LogReceived T)])
  else (Ok tt, s, [SetClipboard T; Log LogSetClipboardFailed]).
Proof.
  intros Hne Hlast.
  unfold receive_message, clipboard_frame, try_except, bind, gets. simpl.
  rewrite (truthy_nonempty T Hne).
  destruct (String.eqb_spec T (last_clipboard s)) as [E | _]; [contradiction |].
  destruct ok; reflexivity.
Qed.

(** C3, as the code has it: a non-empty text [T] delivered in a
    clipboard-type message and different from the snapshot is passed to
    [set_clipboard] exactly once, and the snapshot becomes [T] when that
    write succeeds and stays as it was when it fails; a text equal to the
    snapshot causes no write and changes nothing. *)
Theorem receive_writes_new_text (s : state) (T : string) (ok : bool) :
  T <> "" ->
  let r := receive_message (clipboard_frame T) ok s in
  outcome r = Ok tt /\
  (T <> last_clipboard s ->
     writes (effects r) = [T] /\
     last_clipboard (final r) = (if ok then T else last_clipboard s)) /\
  (T = last_clipboard s -> writes (effects r) = [] /\ final r = s).
Proof.
  intros Hne r. subst r.
  destruct (String.eqb_spec T (last_clipboard s)) as [E | N].
  - subst T. rewrite receive_message_same.
    split; [reflexivity | split].
    + intros D. contradiction D. reflexivity.
    + intros _. split; reflexivity.
  - rewrite (receive_message_new s T ok Hne N).
    destruct ok; (split; [reflexivity | split]);
      solve [ intros _; split; reflexivity | intros E; contradiction ].
Qed.

Lemma receive_writes_new_text_witness :
  let s := {| current_state := CONNECTED; last_clipboard := "old";
              reconnect_count := 0; consecutive_errors := 0 |} in
  let r := receive_message (clipboard_frame "new") true s in
  writes (effects r) = ["new"] /\ last_clipboard (final r) = "new".
Proof.
  intros s r.
  refine (proj1 (proj2 (receive_writes_new_text s "new" true _)) _);
    intros H; discriminate H.
Defined.

(** C3 as stated fails for the empty text: it differs from the snapshot
    ["a"], yet nothing is written and the snapshot stays ["a"]. *)
Lemma receive_empty_text_counterexample :
  let s := {| current_state := CONNECTED; last_clipboard := "a";
              reconnect_count := 0; consecutive_errors := 0 |} in
  let r := receive_message (clipboard_frame "") true s in
  "" <> last_clipboard s /\
  ~ (writes (effects r) = [""] /\ last_clipboard (final r) = "") /\
  writes (effects r) = [] /\ last_clipboard (final r) = "a".
Proof.
  split; [intros H; discriminate H |].
  split; [intros [H _]; discriminate H |].
  split; reflexivity.
Qed.

(** The snapshot follows the write only when the write succeeds. *)
Lemma receive_failed_write_keeps_snapshot :
  let s := {| current_state := CONNECTED; last_clipboard := "a";
              reconnect_count := 0; consecutive_errors := 0 |} in
  let r := receive_message (clipboard_frame "b") false s in
  writes (effects r) = ["b"] /\ last_clipboard (final r) = "a".
Proof. split; reflexivity. Qed.

(** ** Sender *)

(** A round of [send] that reads the snapshot itself sends nothing. *)
Lemma send_iteration_same (cfg : config) (s : state) (i : poll_input) :
  reads i (last_clipboard s) ->
  sends (effects (send_iteration cfg i s)) = [] /\
  last_clipboard (final (send_iteration cfg i s)) = last_clipboard s.
Proof.
  destruct i as [rd sr rs sl]. unfold reads. simpl. intros ->.
  unfold send_iteration, send_try, try_except, bind, gets, modify, sleep. simpl.
  rewrite String.eqb_refl, andb_false_r. simpl.
  destruct sl; split; reflexivity.
Qed.

(** A round of [send] that reads a new non-empty text records it and
    calls [ws.send] once, whatever the call answers. *)
Lemma send_iteration_new (cfg : config) (s : state) (i : poll_input) (T : string) :
  reads i T -> T <> "" -> T <> last_clipboard s ->
  sends (effects (send_iteration cfg i s)) = [clipboard_envelope T] /\
  last_clipboard (final (send_iteration cfg i s)) = T.
Proof.
  destruct i as [rd sr rs sl]. unfold reads. simpl. intros -> Hne Hlast.
  unfold send_iteration, send_try, try_except, bind, gets, modify, sleep, await, ws_send. simpl.
  rewrite (truthy_nonempty T Hne).
  destruct (String.eqb_spec T (last_clipboard s)) as [E | _]; [contradiction |].
  simpl.
  destruct sr as [[] |], sl; split; reflexivity.
Qed.

(** C4, as the code has it: a non-empty text [T] read from the local
    clipboard and different from the snapshot is handed to [ws.send]
    exactly once, in a clipboard-type envelope with source [macos], and
    the snapshot is [T] when the round ends, whether or not the send
    succeeds. *)
Theorem send_transmits_new_text (cfg : config) (s : state) (i : poll_input) (T : string) :
  reads i T -> T <> "" -> T <> last_clipboard s ->
  let r := send_iteration cfg i s in
  sends (effects r) =
    [{| env_type := "clipboard"; env_text := T; env_source := "macos" |}] /\
  last_clipboard (final r) = T.
Proof.
  intros Hr Hne Hlast r. exact (send_iteration_new cfg s i T Hr Hne Hlast).
Qed.

Lemma send_transmits_new_text_witness :
  let s := {| current_state := CONNECTED; last_clipboard := "old";
              reconnect_count := 0; consecutive_errors := 0 |} in
  let i := {| clipboard_read := Some "new"; send_result := None;
              recover_sleep := false; interval_sleep := false |} in
  let r := send_iteration default_config i s in
  sends (effects r) =
    [{| env_type := "clipboard"; env_text := "new"; env_source := "macos" |}] /\
  last_clipboard (final r) = "new".
Proof.
  intros s i r.
  apply (send_transmits_new_text default_config s i "new").
  - reflexivity.
  - intros H. discriminate H.
  - intros H. discriminate H.
Defined.

(** C4 as stated fails for the empty text: read while the snapshot is
    ["a"], it differs from the snapshot, yet nothing is sent and the
    snapshot stays ["a"]. *)
Lemma send_empty_text_counterexample :
  let s := {| current_state := CONNECTED; last_clipboard := "a";
              reconnect_count := 0; consecutive_errors := 0 |} in
  let i := {| clipboard_read := Some ""; send_result := None;
              recover_sleep := false; interval_sleep := false |} in
  let r := send_iteration default_config i s in
  reads i "" /\ "" <> last_clipboard s /\
  ~ (sends (effects r) = [clipboard_envelope ""] /\ last_clipboard (final r) = "") /\
  sends (effects r) = [] /\ last_clipboard (final r) = "a".
Proof.
  repeat split.
  - intros H. discriminate H.
  - intros [H _]. discriminate H.
Qed.

(** C10: empty text is synchronised in neither direction.  A
    clipboard-type message whose text is empty or absent causes no write
    and leaves every variable as it was; a round of [send] that reads the
    empty string sends nothing and leaves the snapshot as it was. *)
Theorem empty_text_not_synchronised
  (cfg : config) (s : state) (ok : bool) (sr : option exn) (rs sl : bool) :
  let r1 := receive_message (Object (Some "clipboard") (Some "")) ok s in
  let r2 := receive_message (Object (Some "clipboard") None) ok s in
  let r3 := send_iteration cfg {| clipboard_read := Some ""; send_result := sr;
                                  recover_sleep := rs; interval_sleep := sl |} s in
  (writes (effects r1) = [] /\ final r1 = s) /\
  (writes (effects r2) = [] /\ final r2 = s) /\
  (sends (effects r3) = [] /\ last_clipboard (final r3) = last_clipboard s).
Proof.
  cbv zeta.
  split; [split; reflexivity | split; [split; reflexivity |]].
  unfold send_iteration, send_try, try_except, bind, gets, modify, sleep, await. simpl.
  destruct sl; split; reflexivity.
Qed.

(** ** Echo prevention *)

(** When [receive_message] calls [set_clipboard] with [T] and the write
    succeeds, the snapshot is [T] afterwards. *)
Lemma receive_message_written (s : state) (message : frame) (ok : bool) (T : string) :
  In (SetClipboard T) (effects (receive_message message ok s)) ->
  ok = true ->
  last_clipboard (final (receive_message message ok s)) = T.
Proof.
  intros Hin ->. revert Hin.
  destruct message as [| | type text];
    unfold receive_message, try_except, bind, gets; simpl.
  - intros [H | []]. discriminate H.
  - intros [H | []]. discriminate H.
  - destruct (is_clipboard type); simpl; [| intros []].
    destruct (truthy _ && negb _)%bool; simpl; [| intros []].
    intros [H | [H | []]]; [| discriminate H].
    injection H as ->. reflexivity.
Qed.

(** C1: after the Receiver has written [T] to the clipboard the snapshot
    is [T], and a round of the Sender that then reads [T] sends nothing
    and keeps the snapshot; on both paths the comparison with the
    snapshot comes first: a message carrying the snapshot is not written,
    a read equal to the snapshot is not sent. *)
Theorem echo_prevention
  (cfg : config) (s : state) (message : frame) (ok : bool) (i : poll_input) (T : string) :
  let r1 := receive_message message ok s in
  In (SetClipboard T) (effects r1) -> ok = true -> reads i T ->
  let r2 := send_iteration cfg i (final r1) in
  last_clipboard (final r1) = T /\
  sends (effects r2) = [] /\
  last_clipboard (final r2) = T /\
  (forall s' ok', writes (effects (receive_message (clipboard_frame (last_clipboard s')) ok' s')) = []) /\
  (forall s' i', reads i' (last_clipboard s') -> sends (effects (send_iteration cfg i' s')) = []).
Proof.
  intros r1 Hin Hok Hr r2.
  assert (Hlast : last_clipboard (final r1) = T)
    by exact (receive_message_written s message ok T Hin Hok).
  assert (Hr' : reads i (last_clipboard (final r1))) by (rewrite Hlast; exact Hr).
  destruct (send_iteration_same cfg (final r1) i Hr') as [Hs Hl].
  split; [exact Hlast |].
  split; [exact Hs |].
  split; [subst r2; rewrite Hl; exact Hlast |].
  split.
  - intros s' ok'. rewrite receive_message_same. reflexivity.
  - intros s' i' H'. exact (proj1 (send_iteration_same cfg s' i' H')).
Qed.

Lemma echo_prevention_witness :
  let s := {| current_state := CONNECTED; last_clipboard := "old";
              reconnect_count := 0; consecutive_errors := 0 |} in
  let i := {| clipboard_read := Some "remote"; send_result := None;
              recover_sleep := false; interval_sleep := false |} in
  let r1 := receive_message (clipboard_frame "remote") true s in
  In (SetClipboard "remote") (effects r1) /\
  last_clipboard (final r1) = "remote" /\
  sends (effects (send_iteration default_config i (final r1))) = [].
Proof.
  intros s i r1.
  assert (Hin : In (SetClipboard "remote") (effects r1)) by (left; reflexivity).
  split; [exact Hin |].
  pose proof (echo_prevention default_config s (clipboard_frame "remote") true i "remote"
                Hin eq_refl eq_refl) as H.
  split; [exact (proj1 H) | exact (proj1 (proj2 H))].
Defined.

(** ** The Sender never leaves its loop on its own *)

Ltac unfold_M :=
  unfold send_iteration, send_try, receive_iteration, receive_message,
    heartbeat_iteration, set_clipboard, get_clipboard, set_state,
    send_notification, ws_send, sleep, await, log;
  unfold try_except, bind, gets, modify, emit, ret, raise.

(** What a round of [send] leaves untouched, and how it can end. *)
Lemma send_iteration_frame (cfg : config) (i : poll_input) (s : state) :
  let r := send_iteration cfg i s in
  current_state (final r) = current_state s /\
  reconnect_count (final r) = reconnect_count s /\
  connects (effects r) = 0%nat /\
  (send_cancelled i = false -> outcome r = Ok Continue).
Proof.
  destruct i as [[current |] sr rs sl]; unfold send_cancelled; simpl.
  - unfold_M. simpl.
    destruct (truthy current && negb (current =? last_clipboard s)%string)%bool; simpl.
    + destruct sr as [[] |], sl; simpl; repeat split; try reflexivity;
        try (intros H; discriminate H);
        try (rewrite ?orb_true_r; intros H; discriminate H).
    + destruct sl; simpl; repeat split; try reflexivity;
        rewrite ?orb_true_r; intros H; try discriminate H;
        destruct sr as [[] |]; reflexivity || discriminate H.
  - unfold_M. simpl.
    destruct (5 <=? consecutive_errors s + 1); simpl.
    + destruct rs, sl; simpl; repeat split; try reflexivity;
        rewrite ?orb_true_r; intros H; try discriminate H;
        destruct sr as [[] |]; reflexivity || discriminate H.
    + destruct sl; simpl; repeat split; try reflexivity;
        rewrite ?orb_true_r; intros H; try discriminate H;
        destruct sr as [[] |]; reflexivity || discriminate H.
Qed.

(** A round of [send] that is not cancelled leaves the session where it
    is: the coroutine is still running. *)
Lemma send_step (cfg : config) (m : machine) (i : poll_input) (r h : task_status) :
  pc m = InSession r Running h ->
  send_cancelled i = false ->
  step cfg m (SendStep i) =
  ({| pc := InSession r Running h; vars := final (send_iteration cfg i (vars m)) |},
   effects (send_iteration cfg i (vars m))).
Proof.
  intros Hpc Hq.
  pose proof (send_iteration_frame cfg i (vars m)) as (_ & _ & _ & Hout).
  specialize (Hout Hq).
  unfold step. rewrite Hpc.
  unfold run_main, session_step.
  destruct (send_iteration cfg i (vars m)) as [[o s1] w1].
  unfold outcome in Hout. simpl in Hout. subst o.
  destruct r, h; reflexivity.
Qed.

(** What [receive] leaves untouched while messages arrive or the stream
    ends normally. *)
Lemma receive_iteration_frame (i : recv_input) (s : state) :
  let r := receive_iteration i s in
  current_state (final r) = current_state s /\
  reconnect_count (final r) = reconnect_count s /\
  connects (effects r) = 0%nat /\
  (quiet (ReceiveStep i) = true ->
   outcome r = Ok (match i with StopIteration => Break | _ => Continue end)).
Proof.
  destruct i as [message ok | | e]; simpl.
  - destruct message as [| | type text]; unfold_M; simpl;
      try (repeat split; reflexivity).
    destruct (is_clipboard type); simpl; [| repeat split; reflexivity].
    destruct (truthy _ && negb _)%bool; simpl; [| repeat split; reflexivity].
    destruct ok; repeat split; reflexivity.
  - repeat split; reflexivity.
  - repeat split; try reflexivity. intros H. discriminate H.
Qed.

(** While the Sender runs and nothing raises or cancels, the program
    stays in [asyncio.gather]: it does not reach the [except] clauses,
    does not count a failure and does not connect again. *)
Lemma quiet_step (cfg : config) (m : machine) (ev : event) (r : task_status) :
  pc m = InSession r Running Returned ->
  quiet ev = true ->
  (exists r', pc (fst (step cfg m ev)) = InSession r' Running Returned) /\
  current_state (vars (fst (step cfg m ev))) = current_state (vars m) /\
  reconnect_count (vars (fst (step cfg m ev))) = reconnect_count (vars m) /\
  connects (snd (step cfg m ev)) = 0%nat.
Proof.
  intros Hpc Hq.
  destruct ev as [c | i | i | i | | c]; try discriminate Hq.
  - unfold step. rewrite Hpc. destruct r; simpl; rewrite Hpc; eauto.
  - pose proof (receive_iteration_frame i (vars m)) as (Hcs & Hrc & Hco & Hout).
    specialize (Hout Hq).
    unfold step. rewrite Hpc. destruct r.
    + unfold run_main, session_step.
      destruct (receive_iteration i (vars m)) as [[o s1] w1].
      unfold outcome, final, effects in *. simpl in *. subst o.
      destruct i; simpl; try discriminate Hq; rewrite ?app_nil_r; eauto.
    + simpl. rewrite Hpc. eauto 6.
  - simpl in Hq. apply negb_true_iff in Hq.
    rewrite (send_step cfg m i r Returned Hpc Hq). simpl.
    pose proof (send_iteration_frame cfg i (vars m)) as (Hcs & Hrc & Hco & _).
    eauto.
  - unfold step. rewrite Hpc. destruct r; simpl; rewrite Hpc; eauto.
  - unfold step. rewrite Hpc. destruct r; simpl; rewrite Hpc; eauto.
Qed.

Lemma connects_app (w1 w2 : list effect) :
  connects (w1 ++ w2) = (connects w1 + connects w2)%nat.
Proof. unfold connects. rewrite filter_app, length_app. reflexivity. Qed.

Lemma quiet_run (cfg : config) (evs : list event) :
  forall (m : machine) (r : task_status),
  pc m = InSession r Running Returned ->
  forallb quiet evs = true ->
  (exists r', pc (fst (run cfg m evs)) = InSession r' Running Returned) /\
  current_state (vars (fst (run cfg m evs))) = current_state (vars m) /\
  reconnect_count (vars (fst (run cfg m evs))) = reconnect_count (vars m) /\
  connects (snd (run cfg m evs)) = 0%nat.
Proof.
  induction evs as [| ev evs IH]; intros m r Hpc Hq.
  - simpl. eauto.
  - simpl in Hq. apply andb_true_iff in Hq as [Hev Hevs].
    destruct (quiet_step cfg m ev r Hpc Hev) as ([r1 Hpc1] & Hcs & Hrc & Hco).
    simpl. destruct (step cfg m ev) as [m1 w1]. simpl in *.
    destruct (IH m1 r1 Hpc1 Hevs) as ([r2 Hpc2] & Hcs2 & Hrc2 & Hco2).
    destruct (run cfg m1 evs) as [m2 w2]. simpl in *.
    rewrite connects_app, Hco, Hco2.
    repeat split; eauto; congruence.
Qed.

Lemma send_run (cfg : config) (inputs : list poll_input) :
  forall (m : machine) (r h : task_status),
  pc m = InSession r Running h ->
  forallb (fun i => negb (send_cancelled i)) inputs = true ->
  pc (fst (run cfg m (map SendStep inputs))) = InSession r Running h.
Proof.
  induction inputs as [| i inputs IH]; intros m r h Hpc Hq.
  - exact Hpc.
  - simpl in Hq. apply andb_true_iff in Hq as [Hi Hrest].
    apply negb_true_iff in Hi.
    simpl. rewrite (send_step cfg m i r h Hpc Hi).
    specialize (IH {| pc := InSession r Running h;
                      vars := final (send_iteration cfg i (vars m)) |} r h eq_refl Hrest).
    destruct (run cfg _ (map SendStep inputs)) as [m2 w2]. exact IH.
Qed.

(** How a round of [send] ends: it goes round again, after the poll
    sleep, or it is cancelled. *)
Lemma send_iteration_end (cfg : config) (i : poll_input) (s : state) :
  let r := send_iteration cfg i s in
  (outcome r = Ok Continue \/ outcome r = Raised CancelledError) /\
  (outcome r = Ok Continue ->
   exists w, effects r = w ++ [Sleep (CHECK_INTERVAL cfg)]).
Proof.
  destruct i as [[current |] sr rs sl]; unfold_M; simpl.
  - destruct (truthy current && negb (current =? last_clipboard s)%string)%bool; simpl.
    + destruct sr as [[] |], sl; simpl; split; auto;
        try (intros H; discriminate H); intros _;
        match goal with
        | |- exists w, ?a :: ?b :: [?c] = _ => exists [a; b]; reflexivity
        end.
    + destruct sl; simpl; split; auto; try (intros H; discriminate H).
      intros _. exists []. reflexivity.
  - destruct (5 <=? consecutive_errors s + 1); simpl.
    + destruct rs, sl; simpl; split; auto; try (intros H; discriminate H).
      intros _. eexists [_; _; _]. reflexivity.
    + destruct sl; simpl; split; auto; try (intros H; discriminate H).
      intros _. eexists [_]. reflexivity.
Qed.

(** A failed [ws.send] is caught inside the round and logged. *)
Lemma send_failure_absorbed
  (cfg : config) (i : poll_input) (s : state) (T : string) (e : exn) :
  reads i T -> T <> "" -> T <> last_clipboard s ->
  send_result i = Some e -> is_Exception e = true -> interval_sleep i = false ->
  let r := send_iteration cfg i s in
  outcome r = Ok Continue /\ In (Log (LogSendFailed e)) (effects r).
Proof.
  destruct i as [rd sr rs sl]. unfold reads. simpl.
  intros -> Hne Hlast -> He ->.
  unfold_M. simpl.
  rewrite (truthy_nonempty T Hne).
  destruct (String.eqb_spec T (last_clipboard s)) as [E | _]; [contradiction |].
  simpl. rewrite He. simpl. split; [reflexivity | right; left; reflexivity].
Qed.

(** Once the coroutine has exited, nothing happens any more. *)
Lemma exited_run (cfg : config) (evs : list event) (m : machine) (r : exit_reason) :
  pc m = Exited r -> run cfg m evs = (m, []).
Proof.
  intros Hpc. induction evs as [| ev evs IH]; [reflexivity |].
  simpl. unfold step. rewrite Hpc. destruct ev; rewrite IH; reflexivity.
Qed.

Lemma run_app (cfg : config) (evs1 evs2 : list event) :
  forall m,
  run cfg m (evs1 ++ evs2) =
  (fst (run cfg (fst (run cfg m evs1)) evs2),
   snd (run cfg m evs1) ++ snd (run cfg (fst (run cfg m evs1)) evs2)).
Proof.
  induction evs1 as [| ev evs1 IH]; intros m; simpl.
  - destruct (run cfg m evs2); reflexivity.
  - destruct (step cfg m ev) as [m1 w1]. rewrite IH.
    destruct (run cfg m1 evs1) as [m2 w2]. simpl.
    destruct (run cfg m2 evs2) as [m3 w3]. simpl.
    rewrite app_assoc. reflexivity.
Qed.

(** A round of [send] raises [CancelledError] exactly when one is
    delivered at an await it gets to, and goes round again otherwise. *)
Lemma send_iteration_outcome (cfg : config) (i : poll_input) (s : state) :
  outcome (send_iteration cfg i s) =
  if cancelled_at_await i s then Raised CancelledError else Ok Continue.
Proof.
  destruct i as [[current |] sr rs sl]; unfold cancelled_at_await; unfold_M; simpl.
  - destruct (truthy current && negb (current =? last_clipboard s)%string)%bool; simpl.
    + destruct sr as [[] |], sl; reflexivity.
    + destruct sl; reflexivity.
  - destruct (5 <=? consecutive_errors s + 1); simpl.
    + destruct rs, sl; reflexivity.
    + destruct sl; reflexivity.
Qed.

(** Every round gets to the poll sleep unless it was cancelled before. *)
Lemma interval_sleep_cancelled (i : poll_input) (s : state) :
  interval_sleep i = true -> cancelled_at_await i s = true.
Proof.
  intros H. unfold cancelled_at_await. rewrite H.
  destruct (clipboard_read i) as [current |].
  - destruct (truthy current && negb (current =? last_clipboard s)%string)%bool;
      [destruct (send_result i) as [[] |] |]; reflexivity.
  - destruct (5 <=? consecutive_errors s + 1); [apply orb_true_r | reflexivity].
Qed.

(** A [CancelledError] raised by [ws.send] is not caught: the round ends
    there, without the log line of a send and without the poll sleep. *)
Lemma send_cancelled_at_ws_send (cfg : config) (i : poll_input) (s : state) (T : string) :
  reads i T -> T <> "" -> T <> last_clipboard s ->
  send_result i = Some CancelledError ->
  send_iteration cfg i s =
  (Raised CancelledError,
   with_last_clipboard T (with_consecutive_errors 0 s),
   [WsSend (clipboard_envelope T)]).
Proof.
  destruct i as [rd sr rs sl]. unfold reads. simpl. intros -> Hne Hlast ->.
  unfold_M. simpl.
  rewrite (truthy_nonempty T Hne).
  destruct (String.eqb_spec T (last_clipboard s)) as [E | _]; [contradiction |].
  reflexivity.
Qed.

(** A cancelled round of [send] ends the Sender: [asyncio.gather] raises
    the [CancelledError] and the reconnect loop breaks. *)
Lemma cancelled_send_step
  (cfg : config) (m : machine) (i : poll_input) (r h : task_status) :
  pc m = InSession r Running h ->
  cancelled_at_await i (vars m) = true ->
  pc (fst (step cfg m (SendStep i))) = Exited BreakCancelled.
Proof.
  intros Hpc Hc.
  pose proof (send_iteration_outcome cfg i (vars m)) as Ho. rewrite Hc in Ho.
  unfold step. rewrite Hpc.
  unfold run_main, session_step.
  destruct (send_iteration cfg i (vars m)) as [[o s1] w1].
  unfold outcome in Ho. simpl in Ho. subst o.
  destruct r, h; reflexivity.
Qed.

(** After rounds without cancellation, a cancelled round ends the
    Sender, and [clipboard_sync] with it, for good. *)
Lemma send_run_cancelled
  (cfg : config) (inputs : list poll_input) (i : poll_input) (m : machine)
  (r h : task_status) :
  pc m = InSession r Running h ->
  forallb (fun i => negb (send_cancelled i)) inputs = true ->
  cancelled_at_await i (vars (fst (run cfg m (map SendStep inputs)))) = true ->
  let after := run cfg m (map SendStep (inputs ++ [i])) in
  pc (fst after) = Exited BreakCancelled /\
  forall evs, run cfg (fst after) evs = (fst after, []).
Proof.
  intros Hpc Hq Hc after. subst after.
  pose proof (send_run cfg inputs m r h Hpc Hq) as Hpc1.
  rewrite map_app, run_app. cbn [fst map run].
  set (m1 := fst (run cfg m (map SendStep inputs))) in *.
  pose proof (cancelled_send_step cfg m1 i r h Hpc1 Hc) as Hx.
  destruct (step cfg m1 (SendStep i)) as [m2 w2]. cbn [fst] in *.
  split; [exact Hx |].
  intros evs. exact (exited_run cfg evs m2 BreakCancelled Hx).
Qed.

(** C5, as the code has it: the Sender goes round its loop, sleeping
    [CHECK_INTERVAL] at the end of every round, until it is cancelled.
    Through any number of rounds without cancellation its coroutine is
    still running and the session is still in [asyncio.gather]; a failed
    [ws.send] is caught and logged inside the round, which ends like any
    other.  Cancellation is the one way out: a round raises
    [CancelledError] exactly when one is delivered at an await it gets
    to ([ws.send], the recovery sleep, the poll sleep), never anything
    else; the [CancelledError] of [ws.send] is not caught and ends the
    round on the spot; and a cancelled round, after any number of rounds
    that were not, ends the Sender and [clipboard_sync] with it, for
    good. *)
Theorem sender_runs_until_cancelled
  (cfg : config) (inputs : list poll_input) (m : machine) (r h : task_status) :
  pc m = InSession r Running h ->
  forallb (fun i => negb (send_cancelled i)) inputs = true ->
  pc (fst (run cfg m (map SendStep inputs))) = InSession r Running h /\
  (forall i s,
     let it := send_iteration cfg i s in
     (outcome it = Ok Continue \/ outcome it = Raised CancelledError) /\
     (outcome it = Ok Continue ->
      exists w, effects it = w ++ [Sleep (CHECK_INTERVAL cfg)])) /\
  (forall i s T e,
     reads i T -> T <> "" -> T <> last_clipboard s ->
     send_result i = Some e -> is_Exception e = true -> interval_sleep i = false ->
     let it := send_iteration cfg i s in
     outcome it = Ok Continue /\ In (Log (LogSendFailed e)) (effects it)) /\
  (forall i s,
     outcome (send_iteration cfg i s) =
     if cancelled_at_await i s then Raised CancelledError else Ok Continue) /\
  (forall i s,
     interval_sleep i = true ->
     outcome (send_iteration cfg i s) = Raised CancelledError) /\
  (forall i s T,
     reads i T -> T <> "" -> T <> last_clipboard s ->
     send_result i = Some CancelledError ->
     send_iteration cfg i s =
     (Raised CancelledError,
      with_last_clipboard T (with_consecutive_errors 0 s),
      [WsSend (clipboard_envelope T)])) /\
  (forall i,
     cancelled_at_await i (vars (fst (run cfg m (map SendStep inputs)))) = true ->
     let after := run cfg m (map SendStep (inputs ++ [i])) in
     pc (fst after) = Exited BreakCancelled /\
     forall evs, run cfg (fst after) evs = (fst after, [])).
Proof.
  intros Hpc Hq.
  split; [exact (send_run cfg inputs m r h Hpc Hq) |].
  split; [intros i s; exact (send_iteration_end cfg i s) |].
  split; [intros i s T e; exact (send_failure_absorbed cfg i s T e) |].
  split; [intros i s; exact (send_iteration_outcome cfg i s) |].
  split.
  { intros i s Hi. rewrite send_iteration_outcome, (interval_sleep_cancelled i s Hi).
    reflexivity. }
  split; [intros i s T; exact (send_cancelled_at_ws_send cfg i s T) |].
  intros i Hc. exact (send_run_cancelled cfg inputs i m r h Hpc Hq Hc).
Qed.

Lemma sender_runs_until_cancelled_witness :
  let m := {| pc := InSession Running Running Running;
              vars := {| current_state := CONNECTED; last_clipboard := "a";
                         reconnect_count := 0; consecutive_errors := 0 |} |} in
  let failing := {| clipboard_read := Some "b"; send_result := Some OtherException;
                    recover_sleep := false; interval_sleep := false |} in
  let idle := {| clipboard_read := Some "b"; send_result := None;
                 recover_sleep := false; interval_sleep := false |} in
  let cancelled := {| clipboard_read := Some "b"; send_result := None;
                      recover_sleep := false; interval_sleep := true |} in
  pc (fst (run default_config m (map SendStep [failing; idle; idle]))) =
  InSession Running Running Running /\
  pc (fst (run default_config m (map SendStep ([failing; idle; idle] ++ [cancelled])))) =
  Exited BreakCancelled.
Proof.
  intros m failing idle cancelled.
  pose proof (sender_runs_until_cancelled default_config [failing; idle; idle]
                m Running Running eq_refl eq_refl) as (H1 & _ & _ & _ & _ & _ & H7).
  split; [exact H1 | exact (proj1 (H7 cancelled eq_refl))].
Defined.

(** C5 as stated fails: a round in which [ws.send] raises ends like any
    other round, the Sender is still running, and the session is still
    in [asyncio.gather]. *)
Lemma send_failure_counterexample :
  let m := {| pc := InSession Running Running Running;
              vars := {| current_state := CONNECTED; last_clipboard := "a";
                         reconnect_count := 0; consecutive_errors := 0 |} |} in
  let i := {| clipboard_read := Some "b"; send_result := Some OtherException;
              recover_sleep := false; interval_sleep := false |} in
  let r := send_iteration default_config i (vars m) in
  sends (effects r) = [clipboard_envelope "b"] /\
  In (Log (LogSendFailed OtherException)) (effects r) /\
  outcome r = Ok Continue /\
  outcome r <> Raised OtherException /\
  pc (fst (step default_config m (SendStep i))) = InSession Running Running Running.
Proof.
  repeat split.
  - right; left; reflexivity.
  - intros H. discriminate H.
Qed.

(** ** Heartbeat *)

(** A ping that times out ends [heartbeat] by [break], after the state
    is set to [DISCONNECTED] and the connection closed; any other
    exception ends it the same way without the close. *)
Lemma heartbeat_failure (cfg : config) (i : heartbeat_input) (s : state) (e : exn) :
  ping_result i = None -> pong_result i = Some e -> is_Exception e = true ->
  close_result i = None ->
  let r := heartbeat_iteration cfg i s in
  outcome r = Ok Break /\
  current_state (final r) = DISCONNECTED /\
  reconnect_count (final r) = reconnect_count s /\
  connects (effects r) = 0%nat /\
  (e = TimeoutError -> In WsClose (effects r)).
Proof.
  destruct i as [pg po cl pa]. simpl. intros -> -> He ->.
  unfold_M. simpl.
  destruct e; try discriminate He; simpl;
    destruct (current_state s) eqn:Hcs, (gui_app cfg); simpl;
      (split; [reflexivity | split; [first [reflexivity | exact Hcs] |
         split; [reflexivity | split; [reflexivity |]]]]);
      intros H; try discriminate H; simpl; tauto.
Qed.

(** ** The reconnect loop *)

Lemma notifications_app (msg : string) (w1 w2 : list effect) :
  notifications msg (w1 ++ w2) = (notifications msg w1 + notifications msg w2)%nat.
Proof. unfold notifications. rewrite filter_app, length_app. reflexivity. Qed.

Lemma bind_ok {A B} (m : M A) (k : A -> M B) (s s1 : state) (a : A) (w1 : list effect) :
  m s = (Ok a, s1, w1) ->
  bind m k s = (let '(r, s2, w2) := k a s1 in (r, s2, w1 ++ w2)).
Proof. intros E. unfold bind. rewrite E. reflexivity. Qed.

(** [set_state] changes the state variable and nothing else, and neither
    connects nor notifies. *)
Lemma set_state_spec (gui : bool) (c : ConnectionState) (s : state) :
  exists w,
    set_state gui c s = (Ok tt, with_current_state c s, w) /\
    connects w = 0%nat /\
    forall msg, notifications msg w = 0%nat.
Proof.
  unfold_M. destruct s as [cs lc rc ce]. simpl.
  destruct cs, c, gui; simpl; eexists; repeat split.
Qed.

Lemma loop_head_spec (cfg : config) (s : state) :
  let r := loop_head cfg s in
  outcome r = Ok Connecting /\
  final r = with_current_state CONNECTING s /\
  connects (effects r) = 1%nat /\
  forall msg, notifications msg (effects r) = 0%nat.
Proof.
  unfold loop_head.
  destruct (set_state_spec (gui_app cfg) CONNECTING s) as (w & E & Hc & Hn).
  rewrite (bind_ok _ _ _ _ _ _ E).
  unfold_M. simpl.
  split; [reflexivity | split; [reflexivity | split]].
  - rewrite connects_app, Hc. reflexivity.
  - intros msg. rewrite notifications_app, Hn. reflexivity.
Qed.

Lemma on_connected_spec (cfg : config) (s : state) :
  let r := on_connected cfg s in
  outcome r = Ok (InSession Running Running Running) /\
  current_state (final r) = CONNECTED /\
  reconnect_count (final r) = 0 /\
  last_clipboard (final r) = last_clipboard s /\
  connects (effects r) = 0%nat /\
  notifications msg_connected (effects r) = 1%nat /\
  notifications msg_reconnecting (effects r) = 0%nat /\
  notifications msg_stopped (effects r) = 0%nat.
Proof.
  unfold on_connected.
  destruct (set_state_spec (gui_app cfg) CONNECTED s) as (w & E & Hc & Hn).
  rewrite (bind_ok _ _ _ _ _ _ E).
  unfold_M. simpl.
  repeat (split; [try reflexivity |]);
    rewrite ?connects_app, ?notifications_app, ?Hc, ?Hn; reflexivity.
Qed.

(** The [except Exception] clause: the state becomes [DISCONNECTED] and
    the counter goes up by one; the loop stops when the budget is
    exhausted, and otherwise sleeps for the backoff delay, notifying the
    user when the counter is one. *)
Lemma handle_spec (cfg : config) (e : exn) (s : state) :
  is_Exception e = true ->
  let r := handle cfg e s in
  let n := reconnect_count s + 1 in
  outcome r = Ok (if attempts_exhausted cfg n then Exited BreakMaxAttempts
                  else Backoff (reconnect_delay cfg n)) /\
  current_state (final r) = DISCONNECTED /\
  reconnect_count (final r) = n /\
  last_clipboard (final r) = last_clipboard s /\
  connects (effects r) = 0%nat /\
  notifications msg_connected (effects r) = 0%nat /\
  notifications msg_reconnecting (effects r) =
    (if attempts_exhausted cfg n then 0%nat else if n =? 1 then 1%nat else 0%nat) /\
  notifications msg_stopped (effects r) =
    (if attempts_exhausted cfg n then 1 else 0)%nat.
Proof.
  intros He.
  assert (Hh : handle cfg e = on_exception cfg e) by (destruct e; try reflexivity; discriminate He).
  rewrite Hh. clear Hh. unfold on_exception.
  destruct (set_state_spec (gui_app cfg) DISCONNECTED s) as (w & E & Hc & Hn).
  rewrite (bind_ok _ _ _ _ _ _ E).
  unfold_M. simpl.
  destruct (attempts_exhausted cfg (reconnect_count s + 1)); simpl.
  - repeat (split; [try reflexivity |]);
      rewrite ?connects_app, ?notifications_app, ?Hc, ?Hn; reflexivity.
  - destruct (reconnect_count s + 1 =? 1); simpl;
      repeat (split; [try reflexivity |]);
      rewrite ?connects_app, ?notifications_app, ?Hc, ?Hn; reflexivity.
Qed.

Lemma run_main_ok (c : M location) (s : state) (l : location) :
  outcome (c s) = Ok l ->
  run_main c s = ({| pc := l; vars := final (c s) |}, effects (c s)).
Proof.
  unfold run_main, outcome, final, effects.
  destruct (c s) as [[o s1] w]. simpl. intros ->. reflexivity.
Qed.

Lemma leave_session_run (k : M location) (s : state) :
  leave_session k s = (outcome (k s), final (k s), [WsClose] ++ effects (k s)).
Proof.
  unfold leave_session, bind, emit. destruct (k s) as [[o s1] w]. reflexivity.
Qed.

(** Both kinds of failure land in the [except] clauses with the
    variables as they were; a failing session closes its connection on
    the way. *)
Lemma fails_with_step (cfg : config) (m : machine) (ev : event) (e : exn) :
  fails_with m ev e ->
  exists w0,
    connects w0 = 0%nat /\
    (forall msg, notifications msg w0 = 0%nat) /\
    step cfg m ev =
    (fst (run_main (handle cfg e) (vars m)),
     w0 ++ snd (run_main (handle cfg e) (vars m))).
Proof.
  intros [[Hpc ->] | (s & h & Hpc & ->)]; unfold step; rewrite Hpc.
  - exists []. repeat split.
    destruct (run_main (handle cfg e) (vars m)); reflexivity.
  - exists [WsClose]. repeat split.
    unfold run_main, session_step, receive_iteration, raise.
    rewrite leave_session_run.
    destruct (handle cfg e (vars m)) as [[[l | x] s1] w]; destruct s, h; reflexivity.
Qed.

(** A failure, seen on the machine. *)
Lemma failure_step (cfg : config) (m : machine) (ev : event) (e : exn) :
  fails_with m ev e -> is_Exception e = true ->
  let n := reconnect_count (vars m) + 1 in
  let r := step cfg m ev in
  pc (fst r) = (if attempts_exhausted cfg n then Exited BreakMaxAttempts
                else Backoff (reconnect_delay cfg n)) /\
  current_state (vars (fst r)) = DISCONNECTED /\
  reconnect_count (vars (fst r)) = n /\
  connects (snd r) = 0%nat /\
  notifications msg_reconnecting (snd r) =
    (if attempts_exhausted cfg n then 0%nat else if n =? 1 then 1%nat else 0%nat) /\
  notifications msg_stopped (snd r) =
    (if attempts_exhausted cfg n then 1%nat else 0%nat).
Proof.
  intros Hf He n r. subst r n.
  destruct (fails_with_step cfg m ev e Hf) as (w0 & Hc0 & Hn0 & ->).
  pose proof (handle_spec cfg e (vars m) He) as (Ho & Hcs & Hrc & _ & Hco & _ & Hnr & Hns).
  rewrite (run_main_ok _ _ _ Ho). cbn [fst snd pc vars].
  rewrite connects_app, !notifications_app, Hc0, !Hn0, Hco, Hnr, Hns.
  auto 10.
Qed.

(** The backoff sleep elapses: the loop goes round and connects again. *)
Lemma retry_step (cfg : config) (m : machine) (d : Q) :
  pc m = Backoff d ->
  let r := step cfg m (SleepResult false) in
  pc (fst r) = Connecting /\
  vars (fst r) = with_current_state CONNECTING (vars m) /\
  connects (snd r) = 1%nat /\
  forall msg, notifications msg (snd r) = 0%nat.
Proof.
  intros Hpc r. subst r. unfold step. rewrite Hpc.
  pose proof (loop_head_spec cfg (vars m)) as (Ho & Hf & Hc & Hn).
  rewrite (run_main_ok _ _ _ Ho). simpl. auto.
Qed.

(** One failed retry from the backoff sleep. *)
Lemma retry_fails_run (cfg : config) (m : machine) (d : Q) (e : exn) :
  pc m = Backoff d -> is_Exception e = true ->
  let n := reconnect_count (vars m) + 1 in
  let r := run cfg m (retry_fails e) in
  pc (fst r) = (if attempts_exhausted cfg n then Exited BreakMaxAttempts
                else Backoff (reconnect_delay cfg n)) /\
  current_state (vars (fst r)) = DISCONNECTED /\
  reconnect_count (vars (fst r)) = n /\
  connects (snd r) = 1%nat /\
  notifications msg_reconnecting (snd r) =
    (if attempts_exhausted cfg n then 0%nat else if n =? 1 then 1%nat else 0%nat) /\
  notifications msg_stopped (snd r) =
    (if attempts_exhausted cfg n then 1%nat else 0%nat).
Proof.
  intros Hpc He n r. subst r n. unfold retry_fails. simpl.
  pose proof (retry_step cfg m d Hpc) as (Hpc1 & Hv1 & Hc1 & Hn1).
  destruct (step cfg m (SleepResult false)) as [m1 w1]. simpl in *.
  assert (Hf : fails_with m1 (ConnectResult (Some e)) e) by (left; auto).
  pose proof (failure_step cfg m1 _ e Hf He) as (Hpc2 & Hcs2 & Hrc2 & Hc2 & Hnr2 & Hns2).
  destruct (step cfg m1 (ConnectResult (Some e))) as [m2 w2]. simpl in *.
  rewrite Hv1 in *. simpl in *.
  rewrite app_nil_r, connects_app, !notifications_app, Hc1, Hc2, !Hn1, Hnr2, Hns2.
  auto 10.
Qed.

(** ** Invariants of the loop *)

Lemma send_task_frame (cfg : config) (i : poll_input) : task_frame (send_iteration cfg i).
Proof.
  intros s. destruct i as [[current |] sr rs sl]; unfold_M; simpl.
  - destruct (truthy current && negb (current =? last_clipboard s)%string)%bool; simpl.
    + destruct sr as [[] |], sl; simpl; repeat split.
    + destruct sl; simpl; repeat split.
  - destruct (5 <=? consecutive_errors s + 1); simpl.
    + destruct rs, sl; simpl; repeat split.
    + destruct sl; simpl; repeat split.
Qed.

Lemma receive_task_frame (i : recv_input) : task_frame (receive_iteration i).
Proof.
  intros s. destruct i as [message ok | | e]; simpl; [| repeat split ..].
  destruct message as [| | type text]; unfold_M; simpl; [repeat split .. |].
  destruct (is_clipboard type); simpl; [| repeat split].
  destruct (truthy _ && negb _)%bool; simpl; [| repeat split].
  destruct ok; repeat split.
Qed.

Lemma heartbeat_task_frame (cfg : config) (i : heartbeat_input) :
  task_frame (heartbeat_iteration cfg i).
Proof.
  intros s. destruct i as [pg po cl pa]. unfold_M. simpl.
  destruct pg as [[] |]; simpl;
    try destruct po as [[] |]; simpl;
    try destruct (current_state s); simpl;
    try destruct (gui_app cfg); simpl;
    try destruct cl; simpl; try destruct pa; simpl; repeat split.
Qed.

Lemma handle_cancelled (cfg : config) (s : state) :
  handle cfg CancelledError s = (Ok (Exited BreakCancelled), s, [Log LogCancelled]).
Proof. reflexivity. Qed.

(** The shape of every transition out of [asyncio.gather]. *)
Lemma session_step_cases
  (cfg : config) (t : M loop_control) (k : task_status -> location) (s : state) :
  task_frame t ->
  exists s1 w1,
    reconnect_count s1 = reconnect_count s /\
    connects w1 = 0%nat /\
    (forall msg, notifications msg w1 = 0%nat) /\
    (session_step cfg t k s = (Ok (k Running), s1, w1) \/
     session_step cfg t k s = (Ok (k Returned), s1, w1 ++ []) \/
     (session_step cfg t k s =
        (outcome (loop_head cfg s1), final (loop_head cfg s1),
         w1 ++ effects (loop_head cfg s1)) /\
      k Returned = InSession Returned Returned Returned) \/
     exists e,
       session_step cfg t k s =
       (outcome (handle cfg e s1), final (handle cfg e s1),
        w1 ++ effects (handle cfg e s1))).
Proof.
  intros Hframe. specialize (Hframe s).
  unfold session_step.
  destruct (t s) as [[[[] | e] s1] w1]; unfold final, effects in Hframe; simpl in Hframe;
    destruct Hframe as (Hrc & Hc & Hn).
  - exists s1, w1. auto.
  - destruct (k Returned) as [| [] [] [] | |] eqn:Hk; simpl;
      try (exists s1, w1; split; [exact Hrc | split; [exact Hc | split; [exact Hn |]]];
           right; left; reflexivity).
    exists s1, (w1 ++ [WsClose]).
    split; [exact Hrc |].
    split; [rewrite connects_app, Hc; reflexivity |].
    split; [intros msg; rewrite notifications_app, Hn; reflexivity |].
    right. right. left. split; [| reflexivity].
    rewrite leave_session_run, <- app_assoc. reflexivity.
  - exists s1, (w1 ++ [WsClose]).
    split; [exact Hrc |].
    split; [rewrite connects_app, Hc; reflexivity |].
    split; [intros msg; rewrite notifications_app, Hn; reflexivity |].
    right. right. right. exists e.
    rewrite leave_session_run, <- app_assoc. reflexivity.
Qed.

Lemma unlimited_never_exhausted (cfg : config) (n : Z) :
  MAX_RECONNECT_ATTEMPTS cfg = 0 -> attempts_exhausted cfg n = false.
Proof. intros H. unfold attempts_exhausted. rewrite H. reflexivity. Qed.

Lemma sound_handle (cfg : config) (e : exn) (s : state) (w1 : list effect) :
  (current_state s = CONNECTED -> reconnect_count s = 0) ->
  notifications msg_stopped w1 = 0%nat ->
  sound cfg (outcome (handle cfg e s), final (handle cfg e s),
             w1 ++ effects (handle cfg e s)).
Proof.
  intros Hs Hw. unfold sound.
  destruct (is_Exception e) eqn:He.
  - pose proof (handle_spec cfg e s He) as (Ho & Hcs & _ & _ & _ & _ & _ & Hns).
    eexists. split; [exact Ho |]. unfold final, effects at 1. simpl. split.
    + unfold coherent. simpl.
      destruct (attempts_exhausted cfg (reconnect_count s + 1)); simpl.
      * intros H. unfold final in Hcs. rewrite Hcs in H. discriminate H.
      * exact Hcs.
    + intros Hmax. rewrite (unlimited_never_exhausted cfg _ Hmax) in *.
      split; [intros H; discriminate H |].
      rewrite notifications_app, Hw, Hns. reflexivity.
  - destruct e; try discriminate He. rewrite handle_cancelled.
    eexists. split; [reflexivity |]. split.
    + exact Hs.
    + intros _. split; [intros H; discriminate H |].
      unfold effects. simpl. rewrite notifications_app, Hw. reflexivity.
Qed.

Lemma sound_loop_head (cfg : config) (s : state) (w1 : list effect) :
  notifications msg_stopped w1 = 0%nat ->
  sound cfg (outcome (loop_head cfg s), final (loop_head cfg s),
             w1 ++ effects (loop_head cfg s)).
Proof.
  intros Hw. pose proof (loop_head_spec cfg s) as (Ho & Hf & _ & Hn).
  eexists. split; [exact Ho |]. unfold final, effects at 1. simpl. split.
  - unfold coherent. simpl. unfold final in Hf. rewrite Hf. reflexivity.
  - intros _. split; [intros H; discriminate H |].
    rewrite notifications_app, Hw, Hn. reflexivity.
Qed.

Lemma sound_in_session (cfg : config) (a b c : task_status) (s : state) (w : list effect) :
  reconnect_count s = 0 ->
  notifications msg_stopped w = 0%nat ->
  sound cfg (Ok (InSession a b c), s, w).
Proof.
  intros Hs Hw. eexists. split; [reflexivity |]. split.
  - exact Hs.
  - intros _. split; [intros H; discriminate H | exact Hw].
Qed.

Lemma sound_session_step
  (cfg : config) (t : M loop_control) (k : task_status -> location) (s : state) :
  task_frame t ->
  (forall st, exists a b c, k st = InSession a b c) ->
  reconnect_count s = 0 ->
  sound cfg (session_step cfg t k s).
Proof.
  intros Hframe Hk Hs.
  destruct (session_step_cases cfg t k s Hframe)
    as (s1 & w1 & Hrc & _ & Hn & [E | [E | [[E _] | [e E]]]]); rewrite E.
  - destruct (Hk Running) as (a & b & c & ->).
    apply sound_in_session; [congruence | apply Hn].
  - destruct (Hk Returned) as (a & b & c & ->).
    apply sound_in_session; [congruence | rewrite app_nil_r; apply Hn].
  - apply sound_loop_head. apply Hn.
  - apply sound_handle; [intros _; congruence | apply Hn].
Qed.

Lemma sound_run_main (cfg : config) (c : M location) (s : state) :
  sound cfg (c s) ->
  coherent (fst (run_main c s)) /\
  (MAX_RECONNECT_ATTEMPTS cfg = 0 ->
   pc (fst (run_main c s)) <> Exited BreakMaxAttempts /\
   notifications msg_stopped (snd (run_main c s)) = 0%nat).
Proof.
  intros (l & Ho & Hc & Hm).
  rewrite (run_main_ok c s l Ho). simpl. split; assumption.
Qed.

Lemma eta_run (r : result location * state * list effect) :
  (outcome r, final r, [] ++ effects r) = r.
Proof. destruct r as [[o s] w]. reflexivity. Qed.

(** Every transition keeps the await points coherent; with an unlimited
    budget no transition stops the loop. *)
Lemma step_sound (cfg : config) (m : machine) (ev : event) :
  coherent m ->
  coherent (fst (step cfg m ev)) /\
  (MAX_RECONNECT_ATTEMPTS cfg = 0 ->
   pc m <> Exited BreakMaxAttempts ->
   pc (fst (step cfg m ev)) <> Exited BreakMaxAttempts /\
   notifications msg_stopped (snd (step cfg m ev)) = 0%nat).
Proof.
  intros Hco.
  assert (Hskip : coherent (fst (m, @nil effect)) /\
                  (MAX_RECONNECT_ATTEMPTS cfg = 0 ->
                   pc m <> Exited BreakMaxAttempts ->
                   pc (fst (m, @nil effect)) <> Exited BreakMaxAttempts /\
                   notifications msg_stopped (snd (m, @nil effect)) = 0%nat))
    by (simpl; auto).
  assert (Hweak : forall c, sound cfg (c (vars m)) ->
                  coherent (fst (run_main c (vars m))) /\
                  (MAX_RECONNECT_ATTEMPTS cfg = 0 ->
                   pc m <> Exited BreakMaxAttempts ->
                   pc (fst (run_main c (vars m))) <> Exited BreakMaxAttempts /\
                   notifications msg_stopped (snd (run_main c (vars m))) = 0%nat)).
  { intros c Hc. destruct (sound_run_main cfg c (vars m) Hc) as [H1 H2]. auto. }
  unfold coherent in Hco. unfold step.
  destruct (pc m) as [| r s h | d | x] eqn:Hpc.
  - destruct ev as [[e |] | | | | |]; try exact Hskip.
    + apply Hweak. rewrite <- (eta_run (handle cfg e (vars m))).
      apply sound_handle; [rewrite Hco; intros H; discriminate H | reflexivity].
    + apply Hweak.
      pose proof (on_connected_spec cfg (vars m)) as (Ho & _ & Hrc & _ & _ & _ & _ & Hns).
      eexists. split; [exact Ho |]. split; [exact Hrc |].
      intros _. split; [intros H; discriminate H | exact Hns].
  - assert (Hcancel : sound cfg (leave_session (handle cfg CancelledError) (vars m))).
    { rewrite leave_session_run.
      apply sound_handle; [intros _; exact Hco | reflexivity]. }
    destruct ev as [c | i | i | i | | c]; destruct r, s, h;
      try exact Hskip; apply Hweak; try exact Hcancel;
      (apply sound_session_step;
       [ first [apply receive_task_frame | apply send_task_frame
               | apply heartbeat_task_frame]
       | intros st; eauto
       | exact Hco ]).
  - destruct ev as [c | i | i | i | | []]; try exact Hskip.
    + simpl. split.
      * unfold coherent. simpl. rewrite Hco. intros H. discriminate H.
      * intros _ _. split; [intros H; discriminate H | reflexivity].
    + apply Hweak. rewrite <- (eta_run (loop_head cfg (vars m))).
      apply sound_loop_head. reflexivity.
  - destruct ev; exact Hskip.
Qed.

Lemma run_sound (cfg : config) (evs : list event) :
  forall m,
  coherent m ->
  coherent (fst (run cfg m evs)) /\
  (MAX_RECONNECT_ATTEMPTS cfg = 0 ->
   pc m <> Exited BreakMaxAttempts ->
   pc (fst (run cfg m evs)) <> Exited BreakMaxAttempts /\
   notifications msg_stopped (snd (run cfg m evs)) = 0%nat).
Proof.
  induction evs as [| ev evs IH]; intros m Hco.
  - simpl. auto.
  - destruct (step_sound cfg m ev Hco) as [Hco1 Hmax1].
    simpl. destruct (step cfg m ev) as [m1 w1]. simpl in *.
    destruct (IH m1 Hco1) as [Hco2 Hmax2].
    destruct (run cfg m1 evs) as [m2 w2]. simpl in *.
    split; [exact Hco2 |].
    intros Hmax Hpc.
    destruct (Hmax1 Hmax Hpc) as [Hpc1 Hn1].
    destruct (Hmax2 Hmax Hpc1) as [Hpc2 Hn2].
    split; [exact Hpc2 |].
    rewrite notifications_app, Hn1, Hn2. reflexivity.
Qed.

(** [clipboard_sync] reaches its first [websockets.connect] with the
    counter at zero. *)
Lemma clipboard_sync_start
  (cfg : config) (initial_read : option string) (entry_state : ConnectionState) :
  let m := fst (clipboard_sync cfg initial_read entry_state) in
  pc m = Connecting /\ reconnect_count (vars m) = 0 /\ coherent m /\
  last_clipboard (vars m) = match initial_read with Some t => t | None => "" end.
Proof.
  unfold clipboard_sync, loop_head. unfold_M. unfold run_main, coherent. simpl.
  destruct initial_read, entry_state, (gui_app cfg); simpl; auto.
Qed.

Lemma coherent_connected (m : machine) :
  coherent m -> current_state (vars m) = CONNECTED -> reconnect_count (vars m) = 0.
Proof.
  unfold coherent. destruct (pc m); intros H E; auto; rewrite E in H; discriminate H.
Qed.

Lemma within_budget (cfg : config) (n : Z) :
  MAX_RECONNECT_ATTEMPTS cfg <= 0 \/ n <= MAX_RECONNECT_ATTEMPTS cfg ->
  attempts_exhausted cfg n = false.
Proof.
  intros H. unfold attempts_exhausted.
  destruct (Z.ltb_spec 0 (MAX_RECONNECT_ATTEMPTS cfg)); [| reflexivity].
  destruct (Z.ltb_spec (MAX_RECONNECT_ATTEMPTS cfg) n); [lia | reflexivity].
Qed.

Lemma flat_map_retry_cons (e : exn) (es : list exn) :
  flat_map retry_fails (e :: es) = retry_fails e ++ flat_map retry_fails es.
Proof. reflexivity. Qed.

(** Retries that fail within the budget: each one counts once, connects
    once, and the loop keeps sleeping between them. *)
Lemma retries_within_budget (cfg : config) (es : list exn) :
  forall (m : machine) (d : Q),
  pc m = Backoff d ->
  forallb is_Exception es = true ->
  MAX_RECONNECT_ATTEMPTS cfg <= 0 \/
  reconnect_count (vars m) + Z.of_nat (length es) <= MAX_RECONNECT_ATTEMPTS cfg ->
  let r := run cfg m (flat_map retry_fails es) in
  (exists d', pc (fst r) = Backoff d') /\
  reconnect_count (vars (fst r)) = reconnect_count (vars m) + Z.of_nat (length es) /\
  connects (snd r) = length es /\
  notifications msg_stopped (snd r) = 0%nat.
Proof.
  induction es as [| e es IH]; intros m d Hpc Hes Hb r; subst r.
  - simpl. rewrite Z.add_0_r. eauto.
  - simpl in Hes. apply andb_true_iff in Hes as [He Hes].
    rewrite flat_map_retry_cons, run_app.
    pose proof (retry_fails_run cfg m d e Hpc He) as (Hpc1 & _ & Hrc1 & Hc1 & _ & Hn1).
    rewrite within_budget in Hpc1, Hn1
      by (cbn [length] in Hb; destruct Hb; [left; assumption | right; lia]).
    destruct (run cfg m (retry_fails e)) as [m1 w1]. simpl fst in *. simpl snd in *.
    assert (Hb1 : MAX_RECONNECT_ATTEMPTS cfg <= 0 \/
                  reconnect_count (vars m1) + Z.of_nat (length es)
                  <= MAX_RECONNECT_ATTEMPTS cfg)
      by (cbn [length] in Hb; destruct Hb; [left; assumption | right; lia]).
    destruct (IH m1 _ Hpc1 Hes Hb1) as (Hpc2 & Hrc2 & Hc2 & Hn2).
    destruct (run cfg m1 (flat_map retry_fails es)) as [m2 w2]. simpl fst in *. simpl snd in *.
    split; [exact Hpc2 |].
    split; [cbn [length]; lia |].
    split; [rewrite connects_app, Hc1, Hc2; reflexivity |].
    rewrite notifications_app, Hn1, Hn2. reflexivity.
Qed.

(** After the first failure of a streak the counter is at least one, and
    no later retry announces the disconnection again. *)
Lemma retries_never_notify (cfg : config) (es : list exn) :
  forall (m : machine),
  (exists d, pc m = Backoff d) \/ (exists x, pc m = Exited x) ->
  1 <= reconnect_count (vars m) ->
  forallb is_Exception es = true ->
  notifications msg_reconnecting (snd (run cfg m (flat_map retry_fails es))) = 0%nat.
Proof.
  induction es as [| e es IH]; intros m Hpc Hrc Hes; [reflexivity |].
  destruct Hpc as [[d Hpc] | [x Hpc]].
  - simpl in Hes. apply andb_true_iff in Hes as [He Hes].
    rewrite flat_map_retry_cons, run_app.
    pose proof (retry_fails_run cfg m d e Hpc He) as (Hpc1 & _ & Hrc1 & _ & Hn1 & _).
    destruct (run cfg m (retry_fails e)) as [m1 w1]. simpl fst in *. simpl snd in *.
    rewrite notifications_app, Hn1.
    rewrite (IH m1); [| | lia | exact Hes].
    + destruct (attempts_exhausted cfg _); [reflexivity |].
      destruct (Z.eqb_spec (reconnect_count (vars m) + 1) 1); [lia | reflexivity].
    + destruct (attempts_exhausted cfg _); eauto.
  - rewrite (exited_run cfg _ m x Hpc). reflexivity.
Qed.

Lemma first_failure_not_exhausted (cfg : config) : attempts_exhausted cfg 1 = false.
Proof.
  unfold attempts_exhausted.
  destruct (Z.ltb_spec 0 (MAX_RECONNECT_ATTEMPTS cfg)); [| reflexivity].
  destruct (Z.ltb_spec (MAX_RECONNECT_ATTEMPTS cfg) 1); [lia | reflexivity].
Qed.

(** A whole streak within the budget. *)
Lemma streak_within_budget
  (cfg : config) (m : machine) (first : event) (e : exn) (es : list exn) :
  fails_with m first e -> is_Exception e = true -> forallb is_Exception es = true ->
  MAX_RECONNECT_ATTEMPTS cfg <= 0 \/
  reconnect_count (vars m) + 1 + Z.of_nat (length es) <= MAX_RECONNECT_ATTEMPTS cfg ->
  let r := run cfg m (streak first es) in
  (exists d, pc (fst r) = Backoff d) /\
  reconnect_count (vars (fst r)) = reconnect_count (vars m) + 1 + Z.of_nat (length es) /\
  connects (snd r) = length es /\
  notifications msg_stopped (snd r) = 0%nat.
Proof.
  intros Hf He Hes Hb r. subst r. unfold streak. simpl.
  pose proof (failure_step cfg m first e Hf He) as (Hpc1 & _ & Hrc1 & Hc1 & _ & Hn1).
  rewrite within_budget in Hpc1, Hn1 by (destruct Hb; [left; assumption | right; lia]).
  destruct (step cfg m first) as [m1 w1]. simpl fst in *. simpl snd in *.
  assert (Hb1 : MAX_RECONNECT_ATTEMPTS cfg <= 0 \/
                reconnect_count (vars m1) + Z.of_nat (length es)
                <= MAX_RECONNECT_ATTEMPTS cfg)
    by (destruct Hb; [left; assumption | right; lia]).
  destruct (retries_within_budget cfg es m1 _ Hpc1 Hes Hb1) as (Hpc2 & Hrc2 & Hc2 & Hn2).
  destruct (run cfg m1 (flat_map retry_fails es)) as [m2 w2]. simpl fst in *. simpl snd in *.
  split; [exact Hpc2 |].
  split; [lia |].
  split; [rewrite connects_app, Hc1, Hc2; reflexivity |].
  rewrite notifications_app, Hn1, Hn2. reflexivity.
Qed.

(** C8: in a streak of consecutive failures (a first failure met with
    the counter at zero, then retries that all fail) the "disconnected,
    reconnecting" notification is sent once: by the first failure, and by
    none of the retries. *)
Theorem one_notification_per_streak
  (cfg : config) (m : machine) (first : event) (e : exn) (es : list exn) :
  fails_with m first e -> is_Exception e = true -> forallb is_Exception es = true ->
  reconnect_count (vars m) = 0 ->
  notifications msg_reconnecting (snd (step cfg m first)) = 1%nat /\
  notifications msg_reconnecting
    (snd (run cfg (fst (step cfg m first)) (flat_map retry_fails es))) = 0%nat /\
  notifications msg_reconnecting (snd (run cfg m (streak first es))) = 1%nat.
Proof.
  intros Hf He Hes Hzero.
  pose proof (failure_step cfg m first e Hf He) as (Hpc1 & _ & Hrc1 & _ & Hn1 & _).
  rewrite Hzero in Hpc1, Hrc1, Hn1. simpl in Hpc1, Hrc1, Hn1.
  rewrite first_failure_not_exhausted in Hpc1, Hn1.
  assert (Hrest : notifications msg_reconnecting
                    (snd (run cfg (fst (step cfg m first)) (flat_map retry_fails es))) = 0%nat).
  { apply retries_never_notify; [left; eauto | lia | exact Hes]. }
  split; [exact Hn1 |]. split; [exact Hrest |].
  unfold streak. simpl.
  destruct (step cfg m first) as [m1 w1]. simpl fst in *. simpl snd in *.
  destruct (run cfg m1 (flat_map retry_fails es)) as [m2 w2]. simpl snd in *.
  rewrite notifications_app, Hn1, Hrest. reflexivity.
Qed.

Lemma one_notification_per_streak_witness :
  let m := fst (clipboard_sync default_config (Some "a") DISCONNECTED) in
  notifications msg_reconnecting
    (snd (run default_config m
            (streak (ConnectResult (Some OtherException))
                    [OtherException; TimeoutError]))) = 1%nat.
Proof.
  intros m.
  refine (proj2 (proj2 (one_notification_per_streak default_config m
                          (ConnectResult (Some OtherException)) OtherException
                          [OtherException; TimeoutError] _ eq_refl eq_refl eq_refl))).
  left. split; reflexivity.
Defined.



(** C9: at every point of every run of [clipboard_sync], whenever the
    state is [CONNECTED], and all the time the session is gathered, the
    counter is zero; a successful [websockets.connect] enters
    [CONNECTED] with the counter reset to zero; and from any point a
    streak of failures within the budget raises the counter by exactly
    the number of failures. *)
Theorem counter_zero_when_connected
  (cfg : config) (initial_read : option string) (entry_state : ConnectionState)
  (evs : list event) :
  let m := fst (run cfg (fst (clipboard_sync cfg initial_read entry_state)) evs) in
  (current_state (vars m) = CONNECTED -> reconnect_count (vars m) = 0) /\
  (forall r s h, pc m = InSession r s h -> reconnect_count (vars m) = 0) /\
  (pc m = Connecting ->
   let m' := fst (step cfg m (ConnectResult None)) in
   pc m' = InSession Running Running Running /\
   current_state (vars m') = CONNECTED /\
   reconnect_count (vars m') = 0) /\
  (forall first e es,
     fails_with m first e -> is_Exception e = true -> forallb is_Exception es = true ->
     MAX_RECONNECT_ATTEMPTS cfg <= 0 \/
     reconnect_count (vars m) + 1 + Z.of_nat (length es) <= MAX_RECONNECT_ATTEMPTS cfg ->
     reconnect_count (vars (fst (run cfg m (streak first es)))) =
     reconnect_count (vars m) + 1 + Z.of_nat (length es)).
Proof.
  intros m.
  pose proof (clipboard_sync_start cfg initial_read entry_state) as (_ & _ & Hco0 & _).
  pose proof (proj1 (run_sound cfg evs _ Hco0)) as Hco. fold m in Hco.
  split; [exact (coherent_connected m Hco) |].
  split; [intros r s h Hpc; unfold coherent in Hco; rewrite Hpc in Hco; exact Hco |].
  split.
  - intros Hpc m'. subst m'. unfold step. rewrite Hpc.
    pose proof (on_connected_spec cfg (vars m)) as (Ho & Hcs & Hrc & _).
    rewrite (run_main_ok _ _ _ Ho). simpl. auto.
  - intros first e es Hf He Hes Hb.
    exact (proj1 (proj2 (streak_within_budget cfg m first e es Hf He Hes Hb))).
Qed.

Lemma counter_zero_when_connected_witness :
  let m := fst (run default_config
                  (fst (clipboard_sync default_config (Some "a") DISCONNECTED))
                  [ConnectResult (Some OtherException); SleepResult false;
                   ConnectResult None]) in
  current_state (vars m) = CONNECTED /\ reconnect_count (vars m) = 0.
Proof.
  intros m. split; [reflexivity |].
  exact (proj1 (counter_zero_when_connected default_config (Some "a") DISCONNECTED
                  [ConnectResult (Some OtherException); SleepResult false;
                   ConnectResult None]) eq_refl).
Defined.

(** ** Heartbeat failure and the session *)

(** After [heartbeat] has ended on a failed ping, the program remains in
    [asyncio.gather] for as long as nothing raises or cancels: [send]
    never returns, so the gather neither returns nor raises, the
    [except] clauses are not reached and no new connection is made. *)
Lemma heartbeat_failure_then_quiet
  (cfg : config) (m : machine) (i : heartbeat_input) (e : exn) (evs : list event) :
  pc m = InSession Running Running Running ->
  ping_result i = None -> pong_result i = Some e -> is_Exception e = true ->
  close_result i = None ->
  forallb quiet evs = true ->
  let r := run cfg m (HeartbeatStep i :: evs) in
  (exists r', pc (fst r) = InSession r' Running Returned) /\
  current_state (vars (fst r)) = DISCONNECTED /\
  reconnect_count (vars (fst r)) = reconnect_count (vars m) /\
  connects (snd r) = 0%nat.
Proof.
  intros Hpc Hpg Hpo He Hcl Hq r. subst r.
  pose proof (heartbeat_failure cfg i (vars m) e Hpg Hpo He Hcl) as (Ho & Hcs & Hrc & Hc & _).
  assert (Hstep : step cfg m (HeartbeatStep i) =
                  ({| pc := InSession Running Running Returned;
                      vars := final (heartbeat_iteration cfg i (vars m)) |},
                   effects (heartbeat_iteration cfg i (vars m)) ++ [])).
  { unfold step. rewrite Hpc. unfold run_main, session_step.
    destruct (heartbeat_iteration cfg i (vars m)) as [[o s1] w1].
    unfold outcome in Ho. simpl in Ho. subst o. reflexivity. }
  simpl. rewrite Hstep.
  pose proof (quiet_run cfg evs
                {| pc := InSession Running Running Returned;
                   vars := final (heartbeat_iteration cfg i (vars m)) |}
                Running eq_refl Hq) as (Hpc2 & Hcs2 & Hrc2 & Hc2).
  destruct (run cfg _ evs) as [m2 w2]. simpl in *.
  split; [exact Hpc2 |].
  split; [congruence |].
  split; [congruence |].
  rewrite app_nil_r, connects_app, Hc, Hc2. reflexivity.
Qed.

(** C6, the code at the failing inputs.  A heartbeat ping times out in a
    connected session: [heartbeat] ends, the state is [DISCONNECTED] and
    the connection is closed.  The inbound stream then ends normally and
    [send] goes on polling (its send on the closed connection fails and
    is absorbed): the program is still in [asyncio.gather], the counter
    is still zero, and no reconnect has started.  The same holds after a
    ping error while [receive] and [send] go on working. *)
Theorem heartbeat_failure_without_reconnect :
  let start := clipboard_sync default_config (Some "a") DISCONNECTED in
  let connected := run default_config (fst start) [ConnectResult None] in
  let timeout := {| ping_result := None; pong_result := Some TimeoutError;
                    close_result := None; pause_result := false |} in
  let ping_error := {| ping_result := None; pong_result := Some OtherException;
                       close_result := None; pause_result := false |} in
  let failed_send := {| clipboard_read := Some "b"; send_result := Some OtherException;
                        recover_sleep := false; interval_sleep := false |} in
  let idle := {| clipboard_read := Some "b"; send_result := None;
                 recover_sleep := false; interval_sleep := false |} in
  let timed_out := run default_config (fst connected) [HeartbeatStep timeout] in
  let later := run default_config (fst timed_out)
                 [ReceiveStep StopIteration; SendStep failed_send;
                  SendStep idle; SendStep idle] in
  let healthy := run default_config (fst connected)
                   [HeartbeatStep ping_error;
                    ReceiveStep (Message (clipboard_frame "c") true);
                    SendStep idle; SendStep idle] in
  pc (fst connected) = InSession Running Running Running /\
  (pc (fst timed_out) = InSession Running Running Returned /\
   current_state (vars (fst timed_out)) = DISCONNECTED /\
   In WsClose (snd timed_out)) /\
  (pc (fst later) = InSession Returned Running Returned /\
   current_state (vars (fst later)) = DISCONNECTED /\
   reconnect_count (vars (fst later)) = 0 /\
   connects (snd timed_out ++ snd later) = 0%nat /\
   notifications msg_reconnecting (snd timed_out ++ snd later) = 0%nat) /\
  (pc (fst healthy) = InSession Running Running Returned /\
   current_state (vars (fst healthy)) = DISCONNECTED /\
   reconnect_count (vars (fst healthy)) = 0 /\
   writes (snd healthy) = ["c"] /\
   ~ In WsClose (snd healthy) /\
   connects (snd healthy) = 0%nat /\
   notifications msg_reconnecting (snd healthy) = 0%nat).
Proof.
  cbv zeta.
  split; [reflexivity |].
  split; [split; [reflexivity | split; [reflexivity |]] |].
  - vm_compute. tauto.
  - split; [split; [reflexivity | split; [reflexivity | split; [reflexivity |
             split; [reflexivity | split; reflexivity]]]] |].
    split; [reflexivity | split; [reflexivity | split; [reflexivity |
             split; [reflexivity | split; [| split; reflexivity]]]]].
    vm_compute. intros H.
    repeat (destruct H as [H | H]; [discriminate H |]). exact H.
Qed.

(** The reconnect sequence does start when the close makes the inbound
    stream raise: then [receive] raises out of the gather. *)
Lemma heartbeat_timeout_then_receive_error :
  let start := clipboard_sync default_config (Some "a") DISCONNECTED in
  let timeout := {| ping_result := None; pong_result := Some TimeoutError;
                    close_result := None; pause_result := false |} in
  let r := run default_config (fst start)
             [ConnectResult None; HeartbeatStep timeout;
              ReceiveStep (IterationError OtherException); SleepResult false] in
  pc (fst r) = Connecting /\ reconnect_count (vars (fst r)) = 1 /\
  notifications msg_reconnecting (snd r) = 1%nat /\ connects (snd r) = 1%nat.
Proof. repeat split; reflexivity. Qed.

(** ** Backoff delays *)

Lemma reconnect_delay_late (cfg : config) (n : Z) :
  6 <= n ->
  reconnect_delay cfg n = Qmin (RECONNECT_DELAY cfg * (3 # 2) ^ 5) 60.
Proof.
  intros H. unfold reconnect_delay. rewrite Z.min_r by lia. reflexivity.
Qed.

(** The formula never yields more than the cap. *)
Lemma reconnect_delay_capped (cfg : config) (n : Z) : (reconnect_delay cfg n <= 60)%Q.
Proof. unfold reconnect_delay. apply Q.le_min_r. Qed.

(** C2, as the code has it: with base delay 5 the delays before
    attempts 1 to 6 are 5, 7.5, 11.25, 16.875, 25.3125 and 37.96875, and
    every later delay is 37.96875 again: the exponent stops at 5, so with
    this base the delay stays below the 60-second cap at every attempt. *)
Theorem reconnect_delay_sequence (cfg : config) :
  RECONNECT_DELAY cfg = 5%Q ->
  reconnect_delay cfg 1 == 5 /\
  reconnect_delay cfg 2 == 15 # 2 /\
  reconnect_delay cfg 3 == 45 # 4 /\
  reconnect_delay cfg 4 == 135 # 8 /\
  reconnect_delay cfg 5 == 405 # 16 /\
  reconnect_delay cfg 6 == 1215 # 32 /\
  (forall n, 6 <= n -> reconnect_delay cfg n == 1215 # 32) /\
  (forall n, 1 <= n -> (reconnect_delay cfg n < 60)%Q).
Proof.
  intros Hbase.
  assert (Hlate : forall n, 6 <= n -> reconnect_delay cfg n == 1215 # 32).
  { intros n Hn. rewrite (reconnect_delay_late cfg n Hn), Hbase. reflexivity. }
  assert (H1 : reconnect_delay cfg 1 == 5)
    by (unfold reconnect_delay; rewrite Hbase; reflexivity).
  assert (H2 : reconnect_delay cfg 2 == 15 # 2)
    by (unfold reconnect_delay; rewrite Hbase; reflexivity).
  assert (H3 : reconnect_delay cfg 3 == 45 # 4)
    by (unfold reconnect_delay; rewrite Hbase; reflexivity).
  assert (H4 : reconnect_delay cfg 4 == 135 # 8)
    by (unfold reconnect_delay; rewrite Hbase; reflexivity).
  assert (H5 : reconnect_delay cfg 5 == 405 # 16)
    by (unfold reconnect_delay; rewrite Hbase; reflexivity).
  repeat (split; [assumption |]).
  split; [apply Hlate; lia |].
  split; [exact Hlate |].
  intros n Hn.
  assert (Hcases : n = 1 \/ n = 2 \/ n = 3 \/ n = 4 \/ n = 5 \/ 6 <= n) by lia.
  destruct Hcases as [-> | [-> | [-> | [-> | [-> | H6]]]]].
  - rewrite H1. reflexivity.
  - rewrite H2. reflexivity.
  - rewrite H3. reflexivity.
  - rewrite H4. reflexivity.
  - rewrite H5. reflexivity.
  - rewrite (Hlate n H6). reflexivity.
Qed.

Lemma reconnect_delay_sequence_witness :
  reconnect_delay default_config 6 == 1215 # 32 /\
  reconnect_delay default_config 9 == 1215 # 32 /\
  (reconnect_delay default_config 9 < 60)%Q.
Proof.
  pose proof (reconnect_delay_sequence default_config eq_refl) as H.
  split; [exact (proj1 (proj2 (proj2 (proj2 (proj2 (proj2 H)))))) |].
  split.
  - apply (proj1 (proj2 (proj2 (proj2 (proj2 (proj2 (proj2 H))))))).
    intros C. discriminate C.
  - apply (proj2 (proj2 (proj2 (proj2 (proj2 (proj2 (proj2 H))))))).
    intros C. discriminate C.
Defined.

(** C2 as stated fails at the seventh attempt: the delay is 37.96875
    again, not 60; and the sixth delay is 37.96875, not 37.97. *)
Lemma reconnect_delay_counterexample :
  reconnect_delay default_config 7 == 1215 # 32 /\
  ~ reconnect_delay default_config 7 == 60 /\
  ~ reconnect_delay default_config 6 == 3797 # 100.
Proof.
  split; [reflexivity |].
  split; intros H; discriminate H.
Qed.

(** On doubles the formula gives the same numbers: from the first
    attempt on, the double computed is the rational delay. *)
Lemma reconnect_delay_float_exact (n : Z) :
  1 <= n ->
  reconnect_delay_float n = float_of_Q (reconnect_delay default_config n).
Proof.
  intros Hn.
  assert (Hcases : n = 1 \/ n = 2 \/ n = 3 \/ n = 4 \/ n = 5 \/ 6 <= n) by lia.
  destruct Hcases as [-> | [-> | [-> | [-> | [-> | H6]]]]];
    try (vm_compute; reflexivity).
  rewrite (reconnect_delay_late default_config n H6).
  unfold reconnect_delay_float. rewrite Z.min_r by lia.
  vm_compute. reflexivity.
Qed.

(** * Further properties of the code *)

(** ** Messages that are not clipboard updates *)

(** X1: a frame that is not valid JSON, not a JSON object, or an object
    whose type is not "clipboard" is skipped: nothing is written, no
    variable changes, and [receive] goes on to the next message.  No
    message at all makes [receive] end or raise. *)
Theorem receive_skips_other_frames (message : frame) (ok : bool) (s : state) :
  is_clipboard_frame message = false ->
  let r := receive_iteration (Message message ok) s in
  outcome r = Ok Continue /\ final r = s /\ writes (effects r) = [] /\
  (forall message' ok' s',
     outcome (receive_iteration (Message message' ok') s') = Ok Continue).
Proof.
  intros Hm r. subst r.
  assert (Hall : forall message' ok' s',
             outcome (receive_iteration (Message message' ok') s') = Ok Continue).
  { intros m' ok' s'.
    exact (proj2 (proj2 (proj2 (receive_iteration_frame (Message m' ok') s'))) eq_refl). }
  split; [apply Hall |].
  destruct message as [| | type text]; simpl in Hm; unfold_M; simpl.
  - repeat split. exact Hall.
  - repeat split. exact Hall.
  - rewrite Hm. simpl. repeat split. exact Hall.
Qed.

Lemma receive_skips_other_frames_witness :
  let s := {| current_state := CONNECTED; last_clipboard := "a";
              reconnect_count := 0; consecutive_errors := 0 |} in
  let r := receive_iteration (Message (Object (Some "ping") (Some "b")) true) s in
  outcome r = Ok Continue /\ final r = s /\ writes (effects r) = [].
Proof.
  intros s r.
  pose proof (receive_skips_other_frames (Object (Some "ping") (Some "b")) true s eq_refl)
    as (H1 & H2 & H3 & _).
  split; [exact H1 | split; [exact H2 | exact H3]].
Defined.

(** ** Repeated deliveries and repeated reads *)

(** X2: a message whose text is a string or absent, delivered again
    after [receive] has handled it with a successful write, causes no
    second write and changes nothing. *)
Theorem receive_twice_writes_once (message : frame) (ok2 : bool) (s : state) :
  let r1 := receive_message message true s in
  let r2 := receive_message message ok2 (final r1) in
  writes (effects r2) = [] /\ final r2 = final r1.
Proof.
  destruct message as [| | type text]; unfold_M; simpl; try (split; reflexivity).
  destruct (is_clipboard type); simpl; [| split; reflexivity].
  set (T := match text with Some t => t | None => "" end).
  destruct (truthy T); simpl; [| split; reflexivity].
  destruct (String.eqb_spec T (last_clipboard s)) as [E | N]; unfold final; simpl.
  - rewrite (proj2 (String.eqb_eq _ _) E). split; reflexivity.
  - rewrite String.eqb_refl. split; reflexivity.
Qed.

(** X3: a write that fails leaves the snapshot alone, so the same text
    delivered again is written again. *)
Theorem failed_write_is_retried (s : state) (T : string) (ok2 : bool) :
  T <> "" -> T <> last_clipboard s ->
  let r1 := receive_message (clipboard_frame T) false s in
  let r2 := receive_message (clipboard_frame T) ok2 (final r1) in
  writes (effects r1) = [T] /\ final r1 = s /\
  writes (effects r2) = [T] /\
  last_clipboard (final r2) = (if ok2 then T else last_clipboard s).
Proof.
  intros Hne Hlast r1 r2. subst r1 r2.
  rewrite (receive_message_new s T false Hne Hlast). cbn [final effects fst snd].
  rewrite (receive_message_new s T ok2 Hne Hlast).
  destruct ok2; (split; [reflexivity | split; [reflexivity | split; reflexivity]]).
Qed.

Lemma failed_write_is_retried_witness :
  let s := {| current_state := CONNECTED; last_clipboard := "a";
              reconnect_count := 0; consecutive_errors := 0 |} in
  let r1 := receive_message (clipboard_frame "b") false s in
  let r2 := receive_message (clipboard_frame "b") true (final r1) in
  writes (effects r2) = ["b"] /\ last_clipboard (final r2) = "b".
Proof.
  intros s r1 r2.
  assert (H1 : "b" <> "") by (intros H; discriminate H).
  assert (H2 : "b" <> last_clipboard s) by (intros H; discriminate H).
  pose proof (failed_write_is_retried s "b" true H1 H2) as (_ & _ & H3 & H4).
  split; [exact H3 | exact H4].
Defined.

(** After a round of [send] that read a non-empty text, that text is the
    snapshot. *)
Lemma send_iteration_snapshot (cfg : config) (s : state) (i : poll_input) (T : string) :
  reads i T -> T <> "" -> last_clipboard (final (send_iteration cfg i s)) = T.
Proof.
  intros Hr Hne.
  destruct (String.eqb_spec T (last_clipboard s)) as [E | N].
  - subst T. exact (proj2 (send_iteration_same cfg s i Hr)).
  - exact (proj2 (send_iteration_new cfg s i T Hr Hne N)).
Qed.

(** A round of [send] that reads the empty string or nothing leaves the
    snapshot alone and sends nothing. *)
Lemma send_iteration_idle (cfg : config) (s : state) (i : poll_input) :
  clipboard_read i = Some "" \/ clipboard_read i = None ->
  sends (effects (send_iteration cfg i s)) = [] /\
  last_clipboard (final (send_iteration cfg i s)) = last_clipboard s.
Proof.
  destruct i as [rd sr rs sl]. simpl. intros [-> | ->]; unfold_M; simpl.
  - destruct sl; split; reflexivity.
  - destruct (5 <=? consecutive_errors s + 1); simpl;
      try destruct rs; simpl; destruct sl; split; reflexivity.
Qed.

(** X6: a round of [send] calls [ws.send] at most once, and a round
    that reads what the round before it read sends nothing, whatever
    became of the first send. *)
Theorem same_read_sent_once (cfg : config) (s : state) (i1 i2 : poll_input) :
  clipboard_read i2 = clipboard_read i1 ->
  (length (sends (effects (send_iteration cfg i1 s))) <= 1)%nat /\
  sends (effects (send_iteration cfg i2 (final (send_iteration cfg i1 s)))) = [].
Proof.
  intros Hsame. split.
  - destruct (clipboard_read i1) as [T |] eqn:Hr1.
    + destruct (String.eqb_spec T "") as [-> | Hne].
      * rewrite (proj1 (send_iteration_idle cfg s i1 (or_introl Hr1))). simpl. lia.
      * destruct (String.eqb_spec T (last_clipboard s)) as [E | N].
        -- subst T. rewrite (proj1 (send_iteration_same cfg s i1 Hr1)). simpl. lia.
        -- rewrite (proj1 (send_iteration_new cfg s i1 T Hr1 Hne N)). simpl. lia.
    + rewrite (proj1 (send_iteration_idle cfg s i1 (or_intror Hr1))). simpl. lia.
  - destruct (clipboard_read i1) as [T |] eqn:Hr1.
    + destruct (String.eqb_spec T "") as [-> | Hne].
      * exact (proj1 (send_iteration_idle cfg _ i2 (or_introl Hsame))).
      * apply send_iteration_same. unfold reads.
        rewrite (send_iteration_snapshot cfg s i1 T Hr1 Hne). exact Hsame.
    + exact (proj1 (send_iteration_idle cfg _ i2 (or_intror Hsame))).
Qed.

Lemma same_read_sent_once_witness :
  let s := {| current_state := CONNECTED; last_clipboard := "a";
              reconnect_count := 0; consecutive_errors := 0 |} in
  let i1 := {| clipboard_read := Some "b"; send_result := Some OtherException;
               recover_sleep := false; interval_sleep := false |} in
  let i2 := {| clipboard_read := Some "b"; send_result := None;
               recover_sleep := false; interval_sleep := false |} in
  sends (effects (send_iteration default_config i2
                    (final (send_iteration default_config i1 s)))) = [].
Proof.
  intros s i1 i2.
  exact (proj2 (same_read_sent_once default_config s i1 i2 eq_refl)).
Defined.

(** X7: the text a round of [send] has just read is not written back
    when the relay returns it: a clipboard message carrying it causes no
    write and changes nothing. *)
Theorem sent_text_not_written_back
  (cfg : config) (s : state) (i : poll_input) (T : string) (ok : bool) :
  reads i T ->
  let r1 := send_iteration cfg i s in
  let r2 := receive_message (clipboard_frame T) ok (final r1) in
  writes (effects r2) = [] /\ final r2 = final r1.
Proof.
  intros Hr r1 r2. subst r1 r2.
  destruct (String.eqb_spec T "") as [-> | Hne].
  - split; reflexivity.
  - pose proof (send_iteration_snapshot cfg s i T Hr Hne) as Hs.
    set (s1 := final (send_iteration cfg i s)) in *.
    rewrite <- Hs, receive_message_same. split; reflexivity.
Qed.

Lemma sent_text_not_written_back_witness :
  let s := {| current_state := CONNECTED; last_clipboard := "a";
              reconnect_count := 0; consecutive_errors := 0 |} in
  let i := {| clipboard_read := Some "b"; send_result := None;
              recover_sleep := false; interval_sleep := false |} in
  writes (effects (receive_message (clipboard_frame "b") true
                     (final (send_iteration default_config i s)))) = [].
Proof.
  intros s i.
  exact (proj1 (sent_text_not_written_back default_config s i "b" true eq_refl)).
Defined.

(** ** Failed clipboard reads *)

Lemma recoveries_app (w1 w2 : list effect) :
  recoveries (w1 ++ w2) = (recoveries w1 + recoveries w2)%nat.
Proof. unfold recoveries. rewrite filter_app, length_app. reflexivity. Qed.

Lemma sends_app (w1 w2 : list effect) : sends (w1 ++ w2) = sends w1 ++ sends w2.
Proof. unfold sends. apply flat_map_app. Qed.

Lemma writes_app (w1 w2 : list effect) : writes (w1 ++ w2) = writes w1 ++ writes w2.
Proof. unfold writes. apply flat_map_app. Qed.

(** One round of [send] whose read fails. *)
Lemma failed_read_round (cfg : config) (s : state) :
  0 <= consecutive_errors s < 5 ->
  let r := send_iteration cfg failed_read s in
  consecutive_errors (final r) = (consecutive_errors s + 1) mod 5 /\
  Z.of_nat (recoveries (effects r)) = (consecutive_errors s + 1) / 5 /\
  sends (effects r) = [] /\
  last_clipboard (final r) = last_clipboard s.
Proof.
  intros Hc. unfold failed_read. unfold_M. simpl.
  destruct (Z.leb_spec 5 (consecutive_errors s + 1)) as [H5 | H5]; simpl.
  - assert (E : consecutive_errors s + 1 = 5) by lia. rewrite E.
    repeat split.
  - rewrite Z.mod_small, Z.div_small by lia. repeat split.
Qed.

(** X4: rounds of [send] whose clipboard read fails send nothing and
    leave the snapshot alone; the Sender stays in its loop, announces a
    recovery pause at every fifth consecutive failure and starts
    counting again from zero after it. *)
Theorem failed_reads_pause_every_fifth
  (cfg : config) (k : nat) (m : machine) (r h : task_status) :
  pc m = InSession r Running h ->
  0 <= consecutive_errors (vars m) < 5 ->
  let after := run cfg m (map SendStep (repeat failed_read k)) in
  pc (fst after) = InSession r Running h /\
  consecutive_errors (vars (fst after)) = (consecutive_errors (vars m) + Z.of_nat k) mod 5 /\
  Z.of_nat (recoveries (snd after)) = (consecutive_errors (vars m) + Z.of_nat k) / 5 /\
  sends (snd after) = [] /\
  last_clipboard (vars (fst after)) = last_clipboard (vars m).
Proof.
  revert m. induction k as [| k IH]; intros m Hpc Hc after; subst after.
  - simpl. rewrite Z.add_0_r, Z.mod_small, Z.div_small by lia. repeat split. exact Hpc.
  - cbn [repeat map run].
    rewrite (send_step cfg m failed_read r h Hpc eq_refl).
    pose proof (failed_read_round cfg (vars m) Hc) as (Hce & Hrec & Hsd & Hlc).
    set (m1 := {| pc := InSession r Running h;
                  vars := final (send_iteration cfg failed_read (vars m)) |}).
    assert (Hc1 : 0 <= consecutive_errors (vars m1) < 5).
    { unfold m1. cbn [vars]. rewrite Hce. apply Z.mod_pos_bound. lia. }
    destruct (IH m1 eq_refl Hc1) as (Hpc2 & Hce2 & Hrec2 & Hsd2 & Hlc2).
    destruct (run cfg m1 (map SendStep (repeat failed_read k))) as [m2 w2].
    cbn [fst snd] in *. unfold m1 in Hce2, Hrec2, Hlc2. cbn [vars] in Hce2, Hrec2, Hlc2.
    split; [exact Hpc2 |].
    rewrite recoveries_app, sends_app, Hsd, Hsd2, Nat2Z.inj_add, Hrec, Hrec2, Hce2, Hce, Hlc2, Hlc.
    assert (Hk : 0 <= Z.of_nat k) by lia.
    set (c := consecutive_errors (vars m)) in *.
    set (z := Z.of_nat k) in *.
    replace (Z.of_nat (S k)) with (z + 1) by (unfold z; lia).
    repeat split.
    + rewrite Zplus_mod_idemp_l. f_equal. lia.
    + pose proof (Z.div_mod (c + 1) 5 ltac:(lia)) as D1.
      pose proof (Z.mod_pos_bound (c + 1) 5 ltac:(lia)) as B1.
      pose proof (Z.div_mod ((c + 1) mod 5 + z) 5 ltac:(lia)) as D2.
      pose proof (Z.mod_pos_bound ((c + 1) mod 5 + z) 5 ltac:(lia)) as B2.
      pose proof (Z.div_mod (c + (z + 1)) 5 ltac:(lia)) as D3.
      pose proof (Z.mod_pos_bound (c + (z + 1)) 5 ltac:(lia)) as B3.
      lia.
Qed.

Lemma failed_reads_pause_every_fifth_witness :
  let m := {| pc := InSession Running Running Running;
              vars := {| current_state := CONNECTED; last_clipboard := "a";
                         reconnect_count := 0; consecutive_errors := 0 |} |} in
  let after := run default_config m (map SendStep (repeat failed_read 12)) in
  consecutive_errors (vars (fst after)) = 2 /\ recoveries (snd after) = 2%nat.
Proof.
  intros m after.
  assert (Hc : 0 <= consecutive_errors (vars m) < 5) by (split; [discriminate | reflexivity]).
  pose proof (failed_reads_pause_every_fifth default_config 12 m Running Running
                eq_refl Hc) as (_ & H1 & H2 & _).
  split; [exact H1 |].
  apply Nat2Z.inj. exact H2.
Defined.

(** ** Relations kept by every run *)

Section RunInvariant.

Variable cfg : config.
Variable R : state -> list effect -> state -> Prop.

Hypothesis R_refl : forall s, R s [] s.
Hypothesis R_trans :
  forall s w1 s1 w2 s2, R s w1 s1 -> R s1 w2 s2 -> R s (w1 ++ w2) s2.
Hypothesis R_close : forall s, R s [WsClose] s.
Hypothesis R_receive : forall i, respects R (receive_iteration i).
Hypothesis R_send : forall i, respects R (send_iteration cfg i).
Hypothesis R_heartbeat : forall i, respects R (heartbeat_iteration cfg i).
Hypothesis R_loop_head : respects R (loop_head cfg).
Hypothesis R_on_connected : respects R (on_connected cfg).
Hypothesis R_handle : forall e, respects R (handle cfg e).

Lemma leave_session_respects (k : M location) :
  respects R k -> respects R (leave_session k).
Proof.
  intros Hk s. rewrite leave_session_run. unfold effects, final. simpl.
  exact (R_trans s [WsClose] s _ _ (R_close s) (Hk s)).
Qed.

Lemma session_step_respects (t : M loop_control) (k : task_status -> location) :
  respects R t -> respects R (session_step cfg t k).
Proof.
  intros Ht s. specialize (Ht s). unfold session_step.
  destruct (t s) as [[[[] | e] s1] w1]; unfold effects, final in Ht; simpl in Ht.
  - exact Ht.
  - assert (Hg : respects R (gather_next cfg (k Returned))).
    { unfold gather_next.
      destruct (k Returned) as [| [] [] [] | |];
        try (intros s'; apply R_refl).
      apply leave_session_respects. exact R_loop_head. }
    specialize (Hg s1).
    destruct (gather_next cfg (k Returned) s1) as [[o s2] w2].
    exact (R_trans _ _ _ _ _ Ht Hg).
  - pose proof (leave_session_respects _ (R_handle e) s1) as Hl.
    destruct (leave_session (handle cfg e) s1) as [[o s2] w2].
    exact (R_trans _ _ _ _ _ Ht Hl).
Qed.

Lemma run_main_respects (c : M location) (s : state) :
  respects R c -> R s (snd (run_main c s)) (vars (fst (run_main c s))).
Proof.
  intros Hc. specialize (Hc s). unfold run_main.
  destruct (c s) as [[[l | e] s1] w]; exact Hc.
Qed.

Lemma step_respects (m : machine) (ev : event) :
  R (vars m) (snd (step cfg m ev)) (vars (fst (step cfg m ev))).
Proof.
  unfold step.
  destruct (pc m) as [| r s h | d | x];
    destruct ev as [[e |] | i | i | i | | []];
    try destruct r; try destruct s; try destruct h;
    try apply R_refl;
    apply run_main_respects;
    first [ apply session_step_respects;
            first [apply R_receive | apply R_send | apply R_heartbeat]
          | apply leave_session_respects; apply R_handle
          | apply R_handle | exact R_on_connected | exact R_loop_head ].
Qed.

End RunInvariant.

Lemma gui_updates_app (w1 w2 : list effect) :
  gui_updates (w1 ++ w2) = gui_updates w1 ++ gui_updates w2.
Proof. unfold gui_updates. apply flat_map_app. Qed.

Lemma display_app (c : ConnectionState) (l1 l2 : list ConnectionState) :
  display c (l1 ++ l2) = display (display c l1) l2.
Proof. unfold display. apply fold_left_app. Qed.

Lemma truthy_true (t : string) : truthy t = true -> t <> "".
Proof.
  unfold truthy. destruct (String.eqb_spec t ""); [intros H; discriminate H | auto].
Qed.

Lemma orderly_refl (cfg : config) (s : state) : orderly cfg s [] s.
Proof.
  split; [intros _; reflexivity |].
  split; [constructor |]. split; [intros H; exact H | left; reflexivity].
Qed.

Lemma orderly_trans (cfg : config) (s : state) (w1 : list effect) (s1 : state)
  (w2 : list effect) (s2 : state) :
  orderly cfg s w1 s1 -> orderly cfg s1 w2 s2 -> orderly cfg s (w1 ++ w2) s2.
Proof.
  intros (Hg1 & Hw1 & Hc1 & Hs1) (Hg2 & Hw2 & Hc2 & Hs2).
  split; [| split; [| split]].
  - intros Hgui. rewrite gui_updates_app, display_app, (Hg1 Hgui). exact (Hg2 Hgui).
  - unfold emits_well_formed in *. apply Forall_app. split; assumption.
  - intros H. exact (Hc2 (Hc1 H)).
  - unfold snapshot_from_traffic in *.
    rewrite writes_app, sends_app, map_app.
    destruct Hs2 as [E | [H | H]].
    + rewrite E. destruct Hs1 as [E1 | [H1 | H1]].
      * left. exact E1.
      * right. left. apply in_or_app. left. exact H1.
      * right. right. apply in_or_app. left. exact H1.
    + right. left. apply in_or_app. right. exact H.
    + right. right. apply in_or_app. right. exact H.
Qed.

Ltac orderly_split :=
  unfold orderly, tracks_gui, emits_well_formed, keeps_error_count,
    snapshot_from_traffic, effects, final; cbn [fst snd].

Ltac orderly_trivial :=
  orderly_split; simpl;
  (split; [intros _; reflexivity
          | split; [repeat constructor
                   | split; [intros H; exact H | left; reflexivity]]]).

Lemma receive_orderly (cfg : config) (i : recv_input) :
  respects (orderly cfg) (receive_iteration i).
Proof.
  intros s. destruct i as [message ok | | e]; [| unfold_M; orderly_trivial ..].
  destruct message as [| | type text]; unfold_M; simpl; try orderly_trivial.
  destruct (is_clipboard type); simpl; [| orderly_trivial].
  set (T := match text with Some t => t | None => "" end).
  destruct (truthy T) eqn:Htr; simpl; [| orderly_trivial].
  apply truthy_true in Htr.
  destruct (negb (T =? last_clipboard s)%string); simpl; [| orderly_trivial].
  destruct ok; orderly_split; simpl.
  - split; [intros _; reflexivity |].
    split; [repeat constructor; exact Htr |].
    split; [intros H; exact H | right; left; left; reflexivity].
  - split; [intros _; reflexivity |].
    split; [repeat constructor; exact Htr |].
    split; [intros H; exact H | left; reflexivity].
Qed.

Lemma send_orderly (cfg : config) (i : poll_input) :
  respects (orderly cfg) (send_iteration cfg i).
Proof.
  intros s. destruct i as [[current |] sr rs sl]; unfold_M; simpl.
  - destruct (truthy current) eqn:Htr; simpl.
    + apply truthy_true in Htr.
      destruct (negb (current =? last_clipboard s)%string); simpl.
      * destruct sr as [[] |], sl; orderly_split; simpl;
          (split; [intros _; reflexivity |]);
          (split; [repeat constructor; simpl; auto |]);
          (split; [intros _; lia | right; right; left; reflexivity]).
      * destruct sl; orderly_split; simpl;
          (split; [intros _; reflexivity |]);
          (split; [repeat constructor |]);
          (split; [intros _; lia | left; reflexivity]).
    + destruct sl; orderly_split; simpl;
        (split; [intros _; reflexivity |]);
        (split; [repeat constructor |]);
        (split; [intros _; lia | left; reflexivity]).
  - destruct (Z.leb_spec 5 (consecutive_errors s + 1)); simpl.
    + destruct rs, sl; orderly_split; simpl;
        (split; [intros _; reflexivity |]);
        (split; [repeat constructor |]);
        (split; [intros _; lia | left; reflexivity]).
    + destruct sl; orderly_split; simpl;
        (split; [intros _; reflexivity |]);
        (split; [repeat constructor |]);
        (split; [intros ?; lia | left; reflexivity]).
Qed.

Ltac orderly_state_change Hcs Hg :=
  orderly_split; simpl; rewrite ?Hcs;
  (split; [intros Hgui; first [congruence | reflexivity]
          | split; [repeat constructor
                   | split; [intros ?; simpl; lia | left; reflexivity]]]).

Lemma loop_head_orderly (cfg : config) : respects (orderly cfg) (loop_head cfg).
Proof.
  intros s. unfold loop_head. unfold_M.
  destruct (current_state s) eqn:Hcs, (gui_app cfg) eqn:Hg;
    orderly_state_change Hcs Hg.
Qed.

Lemma on_connected_orderly (cfg : config) : respects (orderly cfg) (on_connected cfg).
Proof.
  intros s. unfold on_connected. unfold_M.
  destruct (current_state s) eqn:Hcs, (gui_app cfg) eqn:Hg;
    orderly_state_change Hcs Hg.
Qed.

Lemma handle_orderly (cfg : config) (e : exn) : respects (orderly cfg) (handle cfg e).
Proof.
  intros s. unfold handle, on_exception. unfold_M.
  destruct e; simpl; try orderly_trivial;
    destruct (current_state s) eqn:Hcs, (gui_app cfg) eqn:Hg; simpl;
    destruct (attempts_exhausted cfg (reconnect_count s + 1)); simpl;
    try destruct (reconnect_count s + 1 =? 1); simpl;
    orderly_state_change Hcs Hg.
Qed.

Lemma heartbeat_orderly (cfg : config) (i : heartbeat_input) :
  respects (orderly cfg) (heartbeat_iteration cfg i).
Proof.
  intros s. destruct i as [pg po cl pa]. unfold_M. simpl.
  destruct pg as [[] |]; simpl;
    try destruct po as [[] |]; simpl;
    try destruct pa; simpl;
    try orderly_trivial;
    destruct (current_state s) eqn:Hcs, (gui_app cfg) eqn:Hg; simpl;
    try destruct cl; simpl;
    orderly_state_change Hcs Hg.
Qed.

Lemma orderly_close (cfg : config) (s : state) : orderly cfg s [WsClose] s.
Proof. orderly_trivial. Qed.

(** Every transition of the loop and its current session is orderly. *)
Lemma step_orderly (cfg : config) (m : machine) (ev : event) :
  orderly cfg (vars m) (snd (step cfg m ev)) (vars (fst (step cfg m ev))).
Proof.
  apply step_respects.
  - apply orderly_refl.
  - apply orderly_trans.
  - apply orderly_close.
  - intros i. apply receive_orderly.
  - intros i. apply send_orderly.
  - intros i. apply heartbeat_orderly.
  - apply loop_head_orderly.
  - apply on_connected_orderly.
  - intros e. apply handle_orderly.
Qed.

(** So is a round of a coroutine left behind; a [send] left behind
    counts its failures on its own. *)
Lemma world_step_orderly (cfg : config) (w : world) (ev : world_event) :
  orderly cfg (vars (main w)) (snd (world_step cfg w ev))
          (vars (main (fst (world_step cfg w ev)))).
Proof.
  destruct ev as [ev | i | k i | i]; unfold world_step.
  - pose proof (step_orderly cfg (main w) ev) as H.
    destruct (step cfg (main w) ev) as [m' out].
    destruct (left_behind (main w) m' ev) as [[r s] h]. exact H.
  - destruct (event_loop_runs (pc (main w))), (left_receivers w) as [| n];
      try apply orderly_refl.
    pose proof (receive_orderly cfg i (vars (main w))) as H.
    destruct (receive_iteration i (vars (main w))) as [[o s1] out]. exact H.
  - destruct (event_loop_runs (pc (main w))), (nth_error (left_senders w) k) as [count |];
      try apply orderly_refl.
    pose proof (send_orderly cfg i (with_consecutive_errors count (vars (main w))))
      as (Hg & Hw & _ & Hs).
    destruct (send_iteration cfg i (with_consecutive_errors count (vars (main w))))
      as [[o s1] out].
    split; [exact Hg | split; [exact Hw | split; [intros H; exact H | exact Hs]]].
  - destruct (event_loop_runs (pc (main w))), (left_heartbeats w) as [| n];
      try apply orderly_refl.
    pose proof (heartbeat_orderly cfg i (vars (main w))) as H.
    destruct (heartbeat_iteration cfg i (vars (main w))) as [[o s1] out]. exact H.
Qed.

(** Every run is orderly, whatever the coroutines left behind do. *)
Lemma world_run_orderly (cfg : config) (evs : list world_event) :
  forall w,
  orderly cfg (vars (main w)) (snd (world_run cfg w evs))
          (vars (main (fst (world_run cfg w evs)))).
Proof.
  induction evs as [| ev evs IH]; intros w.
  - apply orderly_refl.
  - pose proof (world_step_orderly cfg w ev) as H1. simpl.
    destruct (world_step cfg w ev) as [w1 out1]. specialize (IH w1).
    destruct (world_run cfg w1 evs) as [w2 out2]. simpl in *.
    exact (orderly_trans _ _ _ _ _ _ H1 IH).
Qed.

Lemma Forall_replace_nth {A} (P : A -> Prop) (l mid : list A) (k : nat) (x : A) :
  nth_error l k = Some x ->
  Forall P l -> Forall P mid -> Forall P (firstn k l ++ mid ++ skipn (S k) l).
Proof.
  intros Hk Hl Hmid.
  rewrite <- (firstn_skipn_middle k l Hk) in Hl.
  apply Forall_app in Hl as [H1 H2]. inversion H2; subst.
  rewrite !Forall_app. auto.
Qed.

Lemma world_step_counts (cfg : config) (w : world) (ev : world_event) :
  counts_in_range w -> counts_in_range (fst (world_step cfg w ev)).
Proof.
  intros [Hmain Hleft].
  pose proof (world_step_orderly cfg w ev) as (_ & _ & Hkeep & _).
  specialize (Hkeep Hmain).
  split; [exact Hkeep |]. clear Hkeep.
  destruct ev as [ev | i | k i | i]; unfold world_step.
  - destruct (step cfg (main w) ev) as [m' out].
    unfold left_behind.
    destruct (pc (main w)) as [| r s h | d | x]; cbn [fst left_senders];
      try (rewrite app_nil_r; exact Hleft).
    destruct (pc m') as [| r' s' h' | d' | x']; cbn [fst left_senders];
      try (rewrite app_nil_r; exact Hleft).
    destruct ev; cbn [fst left_senders]; try (rewrite app_nil_r; exact Hleft);
      apply Forall_app; (split; [exact Hleft |]);
      destruct s; simpl; repeat constructor; apply Hmain.
  - destruct (event_loop_runs (pc (main w))), (left_receivers w) as [| n];
      try exact Hleft.
    destruct (receive_iteration i (vars (main w))) as [[o s1] out]. exact Hleft.
  - destruct (event_loop_runs (pc (main w))); [| exact Hleft].
    destruct (nth_error (left_senders w) k) as [count |] eqn:Hk; [| exact Hleft].
    assert (Hcount : 0 <= count < 5).
    { rewrite Forall_forall in Hleft. apply Hleft. exact (nth_error_In _ _ Hk). }
    pose proof (send_orderly cfg i (with_consecutive_errors count (vars (main w))))
      as (_ & _ & Hkeep & _).
    specialize (Hkeep Hcount).
    destruct (send_iteration cfg i (with_consecutive_errors count (vars (main w))))
      as [[o s1] out].
    cbn [fst left_senders]. apply (Forall_replace_nth _ _ _ _ _ Hk); [exact Hleft |].
    destruct (goes_on o); [constructor; [exact Hkeep | constructor] | constructor].
  - destruct (event_loop_runs (pc (main w))), (left_heartbeats w) as [| n];
      try exact Hleft.
    destruct (heartbeat_iteration cfg i (vars (main w))) as [[o s1] out]. exact Hleft.
Qed.

Lemma world_run_counts (cfg : config) (evs : list world_event) :
  forall w, counts_in_range w -> counts_in_range (fst (world_run cfg w evs)).
Proof.
  induction evs as [| ev evs IH]; intros w Hw; [exact Hw |].
  simpl. pose proof (world_step_counts cfg w ev Hw) as H1.
  destruct (world_step cfg w ev) as [w1 out1]. specialize (IH w1 H1).
  destruct (world_run cfg w1 evs) as [w2 out2]. exact IH.
Qed.

(** [clipboard_sync] up to its first connection attempt is orderly as
    well. *)
Lemma clipboard_sync_orderly
  (cfg : config) (initial_read : option string) (entry_state : ConnectionState) :
  let r := clipboard_sync cfg initial_read entry_state in
  tracks_gui cfg {| current_state := entry_state; last_clipboard := "";
                    reconnect_count := 0; consecutive_errors := 0 |}
             (snd r) (vars (fst r)) /\
  Forall well_formed (snd r) /\
  consecutive_errors (vars (fst r)) = 0 /\
  writes (snd r) = [] /\ sends (snd r) = [].
Proof.
  unfold clipboard_sync, loop_head, run_main. unfold_M. unfold tracks_gui. simpl.
  destruct initial_read, entry_state, (gui_app cfg) eqn:Hg; simpl;
    (split; [intros Hgui; first [congruence | reflexivity] |]);
    (split; [repeat constructor |]); repeat split.
Qed.

(** X5: at every point of every run of [clipboard_sync], every [send]
    coroutine, the one of the current session and each one a failed
    session has left running, has its count of consecutive read
    failures between 0 and 4. *)
Theorem error_count_below_five
  (cfg : config) (initial_read : option string) (entry_state : ConnectionState)
  (evs : list world_event) :
  let w := fst (world_run cfg
                  (world_start (fst (clipboard_sync cfg initial_read entry_state))) evs) in
  0 <= consecutive_errors (vars (main w)) < 5 /\
  Forall (fun count => 0 <= count < 5) (left_senders w).
Proof.
  intros w. subst w. apply world_run_counts.
  pose proof (clipboard_sync_orderly cfg initial_read entry_state) as (_ & _ & H0 & _).
  split; [cbn [world_start main]; rewrite H0; lia | constructor].
Qed.

Lemma well_formed_sends (w : list effect) :
  Forall well_formed w ->
  Forall (fun v => env_type v = "clipboard" /\ env_source v = "macos" /\ env_text v <> "")
         (sends w).
Proof.
  induction 1 as [| e w He Hw IH]; [constructor |].
  destruct e; simpl; try exact IH. constructor; [exact He | exact IH].
Qed.

Lemma well_formed_writes (w : list effect) :
  Forall well_formed w -> Forall (fun t => t <> "") (writes w).
Proof.
  induction 1 as [| e w He Hw IH]; [constructor |].
  destruct e; simpl; try exact IH. constructor; [exact He | exact IH].
Qed.

(** X9: whatever happens, the coroutines left behind by failed sessions
    included, every envelope handed to [ws.send] has type "clipboard",
    source "macos" and a non-empty text; and, the text of an inbound
    message being a string or absent, every text handed to
    [set_clipboard] is non-empty. *)
Theorem only_well_formed_traffic (cfg : config) (w : world) (evs : list world_event) :
  let out := snd (world_run cfg w evs) in
  Forall (fun v => env_type v = "clipboard" /\ env_source v = "macos" /\ env_text v <> "")
         (sends out) /\
  Forall (fun t => t <> "") (writes out).
Proof.
  intros out. subst out.
  pose proof (world_run_orderly cfg evs w) as (_ & Hwf & _).
  split; [apply well_formed_sends | apply well_formed_writes]; exact Hwf.
Qed.

(** X8: over any run, the coroutines left behind by failed sessions
    included, the snapshot changes only to a text that was written to
    the clipboard or sent in that run; connection failures, reconnects,
    heartbeats and cancellations leave it alone.  So the text found on
    the clipboard at start-up is not uploaded: as long as nothing has
    been written or sent, a round of [send] that reads it sends nothing,
    whichever [send] coroutine runs it. *)
Theorem snapshot_changes_only_by_traffic
  (cfg : config) (w : world) (evs : list world_event) :
  let r := world_run cfg w evs in
  let snapshot := last_clipboard (vars (main (fst r))) in
  (snapshot = last_clipboard (vars (main w)) \/
   In snapshot (writes (snd r)) \/
   In snapshot (map env_text (sends (snd r)))) /\
  (forall T entry_state i count,
     w = world_start (fst (clipboard_sync cfg (Some T) entry_state)) ->
     writes (snd r) = [] -> sends (snd r) = [] -> reads i T ->
     sends (effects (send_iteration cfg i
                       (with_consecutive_errors count (vars (main (fst r)))))) = []).
Proof.
  intros r snapshot. subst r snapshot.
  pose proof (world_run_orderly cfg evs w) as (_ & _ & _ & Hs).
  split; [exact Hs |].
  intros T entry_state i count Hw Hwr Hsd Hr.
  unfold snapshot_from_traffic in Hs. rewrite Hwr, Hsd in Hs.
  destruct Hs as [E | [[] | []]].
  apply send_iteration_same. unfold reads. cbn [last_clipboard with_consecutive_errors].
  rewrite E, Hw. cbn [world_start main].
  rewrite (proj2 (proj2 (proj2 (clipboard_sync_start cfg (Some T) entry_state)))).
  exact Hr.
Qed.

(** ** The menu-bar application *)

Lemma drain_last (queue : list ConnectionState) (s : ConnectionState) :
  drain (queue ++ [s]) = Some s.
Proof. unfold drain. rewrite fold_left_app. reflexivity. Qed.

Lemma drain_none (queue : list ConnectionState) : drain queue = None -> queue = [].
Proof.
  destruct queue as [| s queue] using rev_ind; [reflexivity |].
  rewrite drain_last. intros H. discriminate H.
Qed.

(** X13: the timer empties the queue and shows only the state put last:
    the title is that state's text, and the icon is that state's icon
    when its file exists and is left as it was when it does not.  With
    an empty queue the timer changes nothing. *)
Theorem check_state_queue_shows_latest
  (icons : ConnectionState -> string) (path_exists : string -> bool)
  (app : ClipboardSyncApp) :
  let app' := check_state_queue icons path_exists app in
  state_queue app' = [] /\
  (state_queue app = [] -> app' = app) /\
  (forall queue s,
     state_queue app = queue ++ [s] ->
     status_title app' = status_text s /\
     icon app' = (if truthy (icons s) && path_exists (icons s)
                  then icons s else icon app)).
Proof.
  intros app'. subst app'. unfold check_state_queue.
  split; [destruct (drain (state_queue app)); reflexivity |].
  split.
  - intros Hq. rewrite Hq. simpl. destruct app as [q i t]. simpl in Hq. subst q. reflexivity.
  - intros queue s Hq. rewrite Hq, drain_last. simpl. split; reflexivity.
Qed.

Section MenuBarShows.

Variable icons : ConnectionState -> string.
Variable path_exists : string -> bool.

Lemma shows_put (st s : ConnectionState) (app : ClipboardSyncApp) :
  shows icons path_exists s (update_state s app).
Proof. unfold shows, update_state. simpl. rewrite drain_last. reflexivity. Qed.

Lemma shows_tick (st : ConnectionState) (app : ClipboardSyncApp) :
  shows icons path_exists st app ->
  shows icons path_exists st (check_state_queue icons path_exists app) /\
  state_queue (check_state_queue icons path_exists app) = [].
Proof.
  unfold shows, check_state_queue.
  destruct (drain (state_queue app)) as [s |]; simpl.
  - intros ->. split; [| reflexivity].
    split; [reflexivity |]. intros Hall. rewrite Hall. reflexivity.
  - intros H. split; [exact H | reflexivity].
Qed.

Lemma app_run_shows (gevs : list gui_event) :
  forall (st : ConnectionState) (app : ClipboardSyncApp),
  shows icons path_exists st app ->
  shows icons path_exists (display st (puts gevs)) (app_run icons path_exists app gevs).
Proof.
  induction gevs as [| ev gevs IH]; intros st app H; [exact H |].
  destruct ev as [s |]; simpl.
  - apply IH. apply (shows_put st).
  - apply IH. exact (proj1 (shows_tick st app H)).
Qed.

End MenuBarShows.

(** X14: with the menu-bar application set, however the timer's ticks
    fall between the state changes of a run of [clipboard_sync] (those
    made by a [heartbeat] a failed session has left running included),
    after one more tick the queue is empty and the title shows the
    current connection state; so does the icon when every icon file
    exists. *)
Theorem menu_shows_connection_state
  (cfg : config) (icons : ConnectionState -> string) (path_exists : string -> bool)
  (initial_read : option string) (evs : list world_event) (gevs : list gui_event) :
  gui_app cfg = true ->
  let start := clipboard_sync cfg initial_read DISCONNECTED in
  let r := world_run cfg (world_start (fst start)) evs in
  puts gevs = gui_updates (snd start ++ snd r) ->
  let app := app_run icons path_exists (new_app icons) (gevs ++ [Tick]) in
  state_queue app = [] /\
  status_title app = status_text (current_state (vars (main (fst r)))) /\
  ((forall s, truthy (icons s) && path_exists (icons s) = true) ->
   icon app = icons (current_state (vars (main (fst r))))).
Proof.
  intros Hgui start r Hputs app.
  assert (Hnew : shows icons path_exists DISCONNECTED (new_app icons)).
  { unfold shows, new_app. simpl. split; [reflexivity | intros _; reflexivity]. }
  pose proof (app_run_shows icons path_exists gevs DISCONNECTED (new_app icons) Hnew) as Hrun.
  assert (Hstate : display DISCONNECTED (puts gevs) = current_state (vars (main (fst r)))).
  { rewrite Hputs, gui_updates_app, display_app.
    pose proof (clipboard_sync_orderly cfg initial_read DISCONNECTED) as (Hg0 & _).
    fold start in Hg0. specialize (Hg0 Hgui).
    change (display DISCONNECTED (gui_updates (snd start))
            = current_state (vars (fst start))) in Hg0.
    rewrite Hg0.
    exact (proj1 (world_run_orderly cfg evs (world_start (fst start))) Hgui). }
  rewrite Hstate in Hrun.
  subst app. unfold app_run in *. rewrite fold_left_app. simpl.
  destruct (shows_tick icons path_exists _ _ Hrun) as [Hshow Hempty].
  split; [exact Hempty |].
  unfold shows in Hshow. rewrite Hempty in Hshow. exact Hshow.
Qed.

(** A session fails, the loop sleeps and connects again; meanwhile a
    ping of the [heartbeat] left behind fails, and the menu shows "not
    connected" while the loop is connecting. *)
Lemma menu_shows_connection_state_witness :
  let cfg := {| CHECK_INTERVAL := 1 # 2; RECONNECT_DELAY := 5;
                MAX_RECONNECT_ATTEMPTS := 0; gui_app := true |} in
  let icons := fun s => match s with
                        | CONNECTED => "icons/connected.png"
                        | CONNECTING => "icons/connecting.png"
                        | DISCONNECTED => "icons/disconnected.png"
                        end in
  let evs := [Current (ConnectResult None);
              Current (ReceiveStep (IterationError OtherException));
              Current (SleepResult false);
              LeftHeartbeat failing_ping] in
  let r := world_run cfg (world_start (fst (clipboard_sync cfg (Some "a") DISCONNECTED))) evs in
  let app := app_run icons (fun _ => true) (new_app icons)
               ([Put CONNECTING; Tick; Put CONNECTED; Put DISCONNECTED; Tick;
                 Put CONNECTING; Put DISCONNECTED] ++ [Tick]) in
  pc (main (fst r)) = Connecting /\
  current_state (vars (main (fst r))) = DISCONNECTED /\
  state_queue app = [] /\ status_title app = status_text DISCONNECTED /\
  icon app = "icons/disconnected.png".
Proof.
  intros cfg icons evs r app.
  split; [reflexivity |]. split; [reflexivity |].
  pose proof (menu_shows_connection_state cfg icons (fun _ => true) (Some "a") evs
                [Put CONNECTING; Tick; Put CONNECTED; Put DISCONNECTED; Tick;
                 Put CONNECTING; Put DISCONNECTED]
                eq_refl eq_refl) as (H1 & H2 & H3).
  split; [exact H1 | split; [exact H2 |]].
  apply H3. intros s. destruct s; reflexivity.
Defined.

(** ** Sessions *)

Lemma session_step_continue
  (cfg : config) (t : M loop_control) (k : task_status -> location) (s : state) :
  outcome (t s) = Ok Continue ->
  run_main (session_step cfg t k) s =
  ({| pc := k Running; vars := final (t s) |}, effects (t s)).
Proof.
  unfold run_main, session_step, outcome, final, effects.
  destruct (t s) as [[o s1] w1]. simpl. intros ->. reflexivity.
Qed.

Lemma heartbeat_pong (cfg : config) (i : heartbeat_input) (s : state) :
  pong_received i = true ->
  heartbeat_iteration cfg i s = (Ok Continue, s, [WsPing; Sleep 30]).
Proof.
  destruct i as [[e |] [e' |] cl []]; unfold pong_received; simpl;
    intros H; try discriminate H.
  reflexivity.
Qed.

Lemma healthy_step (cfg : config) (m : machine) (ev : event) :
  pc m = InSession Running Running Running ->
  healthy ev = true ->
  pc (fst (step cfg m ev)) = InSession Running Running Running /\
  current_state (vars (fst (step cfg m ev))) = current_state (vars m) /\
  reconnect_count (vars (fst (step cfg m ev))) = reconnect_count (vars m) /\
  connects (snd (step cfg m ev)) = 0%nat /\
  (forall msg, notifications msg (snd (step cfg m ev)) = 0%nat).
Proof.
  intros Hpc Hh.
  destruct ev as [c | [message ok | | e] | i | i | | c]; try discriminate Hh.
  - pose proof (receive_iteration_frame (Message message ok) (vars m))
      as (Hcs & Hrc & Hco & Hout).
    pose proof (receive_task_frame (Message message ok) (vars m)) as (_ & _ & Hn).
    unfold step. rewrite Hpc.
    rewrite (session_step_continue cfg _ _ _ (Hout eq_refl)). simpl. auto.
  - simpl in Hh. apply negb_true_iff in Hh.
    rewrite (send_step cfg m i Running Running Hpc Hh). simpl.
    pose proof (send_iteration_frame cfg i (vars m)) as (Hcs & Hrc & Hco & _).
    pose proof (send_task_frame cfg i (vars m)) as (_ & _ & Hn). auto.
  - simpl in Hh. unfold step. rewrite Hpc.
    assert (Ho : outcome (heartbeat_iteration cfg i (vars m)) = Ok Continue)
      by (rewrite (heartbeat_pong cfg i (vars m) Hh); reflexivity).
    rewrite (session_step_continue cfg _ _ _ Ho).
    rewrite (heartbeat_pong cfg i (vars m) Hh). simpl. repeat split.
Qed.

(** X10: while messages arrive, [send] polls (even when its sends fail)
    and pings are answered, the session goes on with all three
    coroutines running: the connection state and the failure counter do
    not change, nothing is announced and no new connection is made. *)
Theorem healthy_session_goes_on (cfg : config) (evs : list event) (m : machine) :
  pc m = InSession Running Running Running ->
  forallb healthy evs = true ->
  let r := run cfg m evs in
  pc (fst r) = InSession Running Running Running /\
  current_state (vars (fst r)) = current_state (vars m) /\
  reconnect_count (vars (fst r)) = reconnect_count (vars m) /\
  connects (snd r) = 0%nat /\
  (forall msg, notifications msg (snd r) = 0%nat).
Proof.
  revert m. induction evs as [| ev evs IH]; intros m Hpc Hh r; subst r.
  - simpl. repeat split. exact Hpc.
  - simpl in Hh. apply andb_true_iff in Hh as [Hev Hevs].
    destruct (healthy_step cfg m ev Hpc Hev) as (Hpc1 & Hcs1 & Hrc1 & Hco1 & Hn1).
    simpl. destruct (step cfg m ev) as [m1 w1]. simpl in *.
    destruct (IH m1 Hpc1 Hevs) as (Hpc2 & Hcs2 & Hrc2 & Hco2 & Hn2).
    destruct (run cfg m1 evs) as [m2 w2]. simpl in *.
    split; [exact Hpc2 |]. split; [congruence |]. split; [congruence |].
    split; [rewrite connects_app, Hco1, Hco2; reflexivity |].
    intros msg. rewrite notifications_app, Hn1, Hn2. reflexivity.
Qed.

Lemma healthy_session_goes_on_witness :
  let m := fst (run default_config
                  (fst (clipboard_sync default_config (Some "a") DISCONNECTED))
                  [ConnectResult None]) in
  let poll := {| clipboard_read := Some "b"; send_result := Some OtherException;
                 recover_sleep := false; interval_sleep := false |} in
  let pong := {| ping_result := None; pong_result := None;
                 close_result := None; pause_result := false |} in
  let r := run default_config m
             [ReceiveStep (Message Malformed true); SendStep poll; HeartbeatStep pong] in
  pc (fst r) = InSession Running Running Running /\
  current_state (vars (fst r)) = CONNECTED.
Proof.
  intros m poll pong r.
  pose proof (healthy_session_goes_on default_config
                [ReceiveStep (Message Malformed true); SendStep poll; HeartbeatStep pong]
                m eq_refl eq_refl) as (H1 & H2 & _).
  split; [exact H1 | exact H2].
Defined.

(** Where the [except] clauses lead: never back into the session. *)
Lemma handle_location (cfg : config) (e : exn) (s : state) :
  exists l, outcome (handle cfg e s) = Ok l /\ forall a b c, l <> InSession a b c.
Proof.
  destruct (is_Exception e) eqn:He.
  - pose proof (handle_spec cfg e s He) as (Ho & _).
    eexists. split; [exact Ho |].
    intros a b c. destruct (attempts_exhausted cfg _); intros H; discriminate H.
  - destruct e; try discriminate He. rewrite handle_cancelled.
    eexists. split; [reflexivity |]. intros a b c H. discriminate H.
Qed.

(** Where a round of a gathered coroutine leaves the program. *)
Lemma session_step_pc
  (cfg : config) (t : M loop_control) (k : task_status -> location) (s : state) :
  let l := pc (fst (run_main (session_step cfg t k) s)) in
  (outcome (t s) = Ok Continue /\ l = k Running) \/
  (outcome (t s) = Ok Break /\ (l = k Returned \/ l = Connecting)) \/
  (exists e, outcome (t s) = Raised e /\ forall a b c, l <> InSession a b c).
Proof.
  unfold run_main, session_step, outcome.
  destruct (t s) as [[[[] | e] s1] w1]; simpl.
  - left. split; reflexivity.
  - right. left. split; [reflexivity |].
    unfold gather_next.
    destruct (k Returned) as [| [] [] [] | |]; simpl; try (left; reflexivity).
    right. rewrite leave_session_run.
    rewrite (proj1 (loop_head_spec cfg s1)). reflexivity.
  - right. right. exists e. split; [reflexivity |].
    rewrite leave_session_run.
    destruct (handle_location cfg e s1) as (l & Ho & Hl). rewrite Ho. simpl. exact Hl.
Qed.

Lemma sender_alive_step (cfg : config) (m : machine) (ev : event) :
  (forall r s h, pc m = InSession r s h -> s = Running) ->
  forall r s h, pc (fst (step cfg m ev)) = InSession r s h -> s = Running.
Proof.
  intros Hm.
  assert (Hskip : forall r s h,
             pc (fst (m, @nil effect)) = InSession r s h -> s = Running) by exact Hm.
  unfold step.
  destruct (pc m) as [| r0 s0 h0 | d | x] eqn:Hpc.
  - destruct ev as [[e |] | | | | |]; try exact Hskip.
    + destruct (handle_location cfg e (vars m)) as (l & Ho & Hl).
      rewrite (run_main_ok _ _ _ Ho). simpl. intros r s h H. destruct (Hl _ _ _ H).
    + rewrite (run_main_ok _ _ _ (proj1 (on_connected_spec cfg (vars m)))). simpl.
      intros r s h H. injection H as _ <- _. reflexivity.
  - assert (Hs0 : s0 = Running) by exact (Hm r0 s0 h0 eq_refl). subst s0.
    assert (Hcancel : forall a b c,
               pc (fst (run_main (leave_session (handle cfg CancelledError)) (vars m)))
               <> InSession a b c).
    { destruct (handle_location cfg CancelledError (vars m)) as (l & Ho & Hl).
      unfold run_main. rewrite leave_session_run, Ho. simpl. exact Hl. }
    destruct ev as [c | i | i | i | | c]; destruct r0, h0; try exact Hskip;
      intros r s h H;
      try (destruct (Hcancel _ _ _ H));
      match type of H with
      | pc (fst (run_main (session_step _ ?t ?k) _)) = _ =>
          destruct (session_step_pc cfg t k (vars m))
            as [[Hc Hl] | [[Hb [Hl | Hl]] | (e & _ & Hl)]];
          try (destruct (Hl _ _ _ H));
          try (rewrite Hl in H; injection H as _ <- _; reflexivity);
          try (rewrite Hl in H; discriminate H)
      end;
      match type of Hb with
      | outcome (send_iteration _ ?i ?s) = _ =>
          destruct (proj1 (send_iteration_end cfg i s)) as [Ho | Ho];
          rewrite Ho in Hb; discriminate Hb
      end.
  - destruct ev as [c | i | i | i | | []]; try exact Hskip.
    + simpl. intros r s h H. discriminate H.
    + rewrite (run_main_ok _ _ _ (proj1 (loop_head_spec cfg (vars m)))). simpl.
      intros r s h H. discriminate H.
  - destruct ev; exact Hskip.
Qed.

(** X11: [send] has no way out of its loop other than an exception: in
    every run of [clipboard_sync], whenever the program is waiting in
    [asyncio.gather] the Sender is still running, so the gather never
    returns normally. *)
Theorem sender_never_returns
  (cfg : config) (initial_read : option string) (entry_state : ConnectionState)
  (evs : list event) (r s h : task_status) :
  pc (fst (run cfg (fst (clipboard_sync cfg initial_read entry_state)) evs))
  = InSession r s h ->
  s = Running.
Proof.
  assert (Hgen : forall evs m,
             (forall r s h, pc m = InSession r s h -> s = Running) ->
             forall r s h, pc (fst (run cfg m evs)) = InSession r s h -> s = Running).
  { clear. intros evs. induction evs as [| ev evs IH]; intros m Hm; [exact Hm |].
    simpl. pose proof (sender_alive_step cfg m ev Hm) as H1.
    destruct (step cfg m ev) as [m1 w1]. specialize (IH m1 H1).
    destruct (run cfg m1 evs) as [m2 w2]. exact IH. }
  apply Hgen.
  intros r' s' h' H.
  rewrite (proj1 (clipboard_sync_start cfg initial_read entry_state)) in H.
  discriminate H.
Qed.

Lemma sender_never_returns_witness :
  let m := fst (run default_config
                  (fst (clipboard_sync default_config (Some "a") DISCONNECTED))
                  [ConnectResult None; ReceiveStep StopIteration]) in
  pc m = InSession Returned Running Running /\ Running = Running.
Proof.
  intros m. split; [reflexivity |].
  exact (sender_never_returns default_config (Some "a") DISCONNECTED
           [ConnectResult None; ReceiveStep StopIteration]
           Returned Running Running eq_refl).
Defined.

(** ** Cancellation *)

(** X12: a [CancelledError] delivered at the await where
    [clipboard_sync] is waiting ends it at once, for good: while
    connecting or in a session the loop breaks, during the backoff sleep
    the exception leaves the coroutine.  No failure is counted, no
    variable changes (the connection state is left as it was), nothing
    is announced and no connection is attempted. *)
Theorem cancellation_ends_the_loop (cfg : config) (m : machine) :
  (forall x, pc m <> Exited x) ->
  let r := step cfg m (cancel_event (pc m)) in
  pc (fst r) = Exited (match pc m with
                       | Backoff _ => Escaped CancelledError
                       | _ => BreakCancelled
                       end) /\
  vars (fst r) = vars m /\
  connects (snd r) = 0%nat /\
  (forall msg, notifications msg (snd r) = 0%nat) /\
  gui_updates (snd r) = [] /\
  (forall evs, run cfg (fst r) evs = (fst r, [])).
Proof.
  intros Hrun r. subst r. unfold step.
  destruct (pc m) as [| a b c | d | x] eqn:Hpc.
  - simpl. repeat split. intros evs. apply (exited_run cfg evs _ BreakCancelled). reflexivity.
  - destruct a, b, c; simpl; repeat split;
      intros evs; apply (exited_run cfg evs _ BreakCancelled); reflexivity.
  - simpl. repeat split.
    intros evs. apply (exited_run cfg evs _ (Escaped CancelledError)). reflexivity.
  - destruct (Hrun x eq_refl).
Qed.

Lemma cancellation_ends_the_loop_witness :
  let m := fst (run default_config
                  (fst (clipboard_sync default_config (Some "a") DISCONNECTED))
                  [ConnectResult None]) in
  let r := step default_config m (cancel_event (pc m)) in
  pc (fst r) = Exited BreakCancelled /\ current_state (vars (fst r)) = CONNECTED.
Proof.
  intros m r.
  assert (Hrun : forall x, pc m <> Exited x) by (intros x H; discriminate H).
  pose proof (cancellation_ends_the_loop default_config m Hrun) as (H1 & H2 & _).
  split; [exact H1 |]. fold r in H2. rewrite H2. reflexivity.
Defined.

(** ** Announcements *)

Lemma effects_triple {A} (o : result A) (s : state) (w : list effect) :
  effects (o, s, w) = w.
Proof. reflexivity. Qed.

Lemma announces_handle (cfg : config) (e : exn) (s : state) (w1 : list effect) :
  (forall msg, notifications msg w1 = 0%nat) ->
  announces (outcome (handle cfg e s), final (handle cfg e s),
             w1 ++ effects (handle cfg e s)).
Proof.
  intros Hw. unfold announces.
  destruct (is_Exception e) eqn:He.
  - pose proof (handle_spec cfg e s He) as (Ho & _ & _ & _ & _ & Hnc & _ & Hns).
    eexists. split; [exact Ho |].
    rewrite !effects_triple, !notifications_app, !Hw, Hnc, Hns.
    destruct (attempts_exhausted cfg (reconnect_count s + 1)); split; reflexivity.
  - destruct e; try discriminate He. rewrite handle_cancelled.
    eexists. split; [reflexivity |].
    rewrite !effects_triple, !notifications_app, !Hw. split; reflexivity.
Qed.

Lemma announces_loop_head (cfg : config) (s : state) (w1 : list effect) :
  (forall msg, notifications msg w1 = 0%nat) ->
  announces (outcome (loop_head cfg s), final (loop_head cfg s),
             w1 ++ effects (loop_head cfg s)).
Proof.
  intros Hw. pose proof (loop_head_spec cfg s) as (Ho & _ & _ & Hn).
  eexists. split; [exact Ho |].
  rewrite !effects_triple, !notifications_app, !Hw, !Hn. split; reflexivity.
Qed.

Lemma announces_session_step
  (cfg : config) (t : M loop_control) (k : task_status -> location) (s : state) :
  task_frame t ->
  (forall st, exists a b c, k st = InSession a b c) ->
  announces (session_step cfg t k s).
Proof.
  intros Hframe Hk.
  destruct (session_step_cases cfg t k s Hframe)
    as (s1 & w1 & _ & _ & Hn & [E | [E | [[E _] | [e E]]]]); rewrite E.
  - destruct (Hk Running) as (a & b & c & ->).
    eexists. split; [reflexivity |]. rewrite !effects_triple, !Hn. split; reflexivity.
  - destruct (Hk Returned) as (a & b & c & ->).
    eexists. split; [reflexivity |].
    rewrite !effects_triple, app_nil_r, !Hn. split; reflexivity.
  - apply announces_loop_head. exact Hn.
  - apply announces_handle. exact Hn.
Qed.

Lemma announces_run_main (c : M location) (s : state) :
  announces (c s) ->
  notifications msg_connected (snd (run_main c s)) = 0%nat /\
  notifications msg_stopped (snd (run_main c s)) =
    (if stopped_for_budget (pc (fst (run_main c s))) then 1%nat else 0%nat).
Proof.
  intros (l & Ho & Hc & Hs).
  rewrite (run_main_ok c s l Ho). simpl. split; assumption.
Qed.

(** What one transition announces. *)
Lemma step_announcements (cfg : config) (m : machine) (ev : event) :
  notifications msg_connected (snd (step cfg m ev)) =
    (if connects_now m ev then 1%nat else 0%nat) /\
  (stopped_for_budget (pc m) = false ->
   notifications msg_stopped (snd (step cfg m ev)) =
     (if stopped_for_budget (pc (fst (step cfg m ev))) then 1%nat else 0%nat)).
Proof.
  assert (Hweak : forall c, announces (c (vars m)) ->
             notifications msg_connected (snd (run_main c (vars m))) = 0%nat /\
             (stopped_for_budget (pc m) = false ->
              notifications msg_stopped (snd (run_main c (vars m))) =
                (if stopped_for_budget (pc (fst (run_main c (vars m))))
                 then 1%nat else 0%nat))).
  { intros c Hc. destruct (announces_run_main c (vars m) Hc) as [H1 H2]. auto. }
  assert (Hskip : notifications msg_connected (snd (m, @nil effect)) = 0%nat /\
                  (stopped_for_budget (pc m) = false ->
                   notifications msg_stopped (snd (m, @nil effect)) =
                     (if stopped_for_budget (pc (fst (m, @nil effect)))
                      then 1%nat else 0%nat))).
  { simpl. split; [reflexivity |]. intros ->. reflexivity. }
  unfold connects_now, step.
  destruct (pc m) as [| r s h | d | x] eqn:Hpc.
  - destruct ev as [[e |] | | | | |]; try exact Hskip.
    + apply Hweak. rewrite <- (eta_run (handle cfg e (vars m))).
      apply announces_handle. reflexivity.
    + pose proof (on_connected_spec cfg (vars m)) as (Ho & _ & _ & _ & _ & Hnc & _ & Hns).
      rewrite (run_main_ok _ _ _ Ho). simpl. split; [exact Hnc | intros _; exact Hns].
  - assert (Hcancel : announces (leave_session (handle cfg CancelledError) (vars m))).
    { rewrite leave_session_run. apply announces_handle. reflexivity. }
    destruct ev as [c | i | i | i | | c]; destruct r, s, h;
      try exact Hskip; apply Hweak; try exact Hcancel;
      (apply announces_session_step;
       [ first [apply receive_task_frame | apply send_task_frame
               | apply heartbeat_task_frame]
       | intros st; eauto ]).
  - destruct ev as [c | i | i | i | | []]; try exact Hskip.
    + simpl. split; [reflexivity | intros _; reflexivity].
    + apply Hweak. rewrite <- (eta_run (loop_head cfg (vars m))).
      apply announces_loop_head. reflexivity.
  - destruct ev; exact Hskip.
Qed.

(** X15: a transition sends the "connected" notification exactly when
    it completes a connection attempt successfully, and then once. *)
Theorem connected_announced_once_per_connection
  (cfg : config) (m : machine) (ev : event) :
  notifications msg_connected (snd (step cfg m ev)) =
    (if connects_now m ev then 1%nat else 0%nat).
Proof. exact (proj1 (step_announcements cfg m ev)). Qed.

(** X16: over any run that starts before the loop has stopped, the
    "stopped" notification is sent once if the run ends with the loop
    stopped for an exhausted reconnect budget, and not at all
    otherwise. *)
Theorem stopped_announced_iff_stopped (cfg : config) (evs : list event) (m : machine) :
  stopped_for_budget (pc m) = false ->
  notifications msg_stopped (snd (run cfg m evs)) =
    (if stopped_for_budget (pc (fst (run cfg m evs))) then 1%nat else 0%nat).
Proof.
  revert m. induction evs as [| ev evs IH]; intros m Hm.
  - simpl. rewrite Hm. reflexivity.
  - pose proof (proj2 (step_announcements cfg m ev) Hm) as Hstep. simpl.
    destruct (step cfg m ev) as [m1 w1]. simpl in Hstep.
    destruct (stopped_for_budget (pc m1)) eqn:H1.
    + assert (Hx : pc m1 = Exited BreakMaxAttempts).
      { destruct (pc m1) as [| | | []]; try discriminate H1. reflexivity. }
      rewrite (exited_run cfg evs m1 _ Hx). simpl.
      rewrite app_nil_r, Hstep, H1. reflexivity.
    + specialize (IH m1 H1).
      destruct (run cfg m1 evs) as [m2 w2]. simpl in *.
      rewrite notifications_app, Hstep, IH. reflexivity.
Qed.

Lemma stopped_announced_iff_stopped_witness :
  let limited := {| CHECK_INTERVAL := 1 # 2; RECONNECT_DELAY := 5;
                    MAX_RECONNECT_ATTEMPTS := 1; gui_app := false |} in
  let m := fst (clipboard_sync limited (Some "a") DISCONNECTED) in
  notifications msg_stopped
    (snd (run limited m (streak (ConnectResult (Some OtherException)) [TimeoutError])))
  = 1%nat.
Proof.
  intros limited m.
  exact (stopped_announced_iff_stopped limited
           (streak (ConnectResult (Some OtherException)) [TimeoutError]) m eq_refl).
Defined.

(** ** The command line *)

Lemma gui_flag_is_option (arg : string) :
  is_gui_flag arg = true -> String.prefix "-" arg = true.
Proof.
  unfold is_gui_flag. intros H. apply orb_true_iff in H as [H | H];
    apply String.eqb_eq in H; subst arg; reflexivity.
Qed.

Lemma last_cons {A} (l : list A) (x d : A) : last (x :: l) d = last l x.
Proof.
  revert x d. induction l as [| y l IH]; intros x d; [reflexivity |].
  change (last (x :: y :: l) d) with (last (y :: l) d).
  rewrite (IH y d), (IH y x). reflexivity.
Qed.

Lemma parse_args_from (args : list string) :
  forall o,
  gui_mode (fold_left parse_arg args o) = gui_mode o || existsb is_gui_flag args /\
  SERVER_IP (fold_left parse_arg args o) =
    last (filter (fun arg => negb (String.prefix "-" arg)) args) (SERVER_IP o).
Proof.
  induction args as [| arg args IH]; intros o.
  - simpl. rewrite orb_false_r. split; reflexivity.
  - cbn [fold_left existsb filter].
    destruct (IH (parse_arg o arg)) as [Hg Hs]. rewrite Hg, Hs.
    unfold parse_arg.
    destruct (is_gui_flag arg) eqn:Hflag.
    + rewrite (gui_flag_is_option arg Hflag). cbn [negb gui_mode SERVER_IP].
      rewrite orb_true_r. split; reflexivity.
    + destruct (String.prefix "-" arg); cbn [negb gui_mode SERVER_IP orb].
      * split; reflexivity.
      * rewrite last_cons. split; reflexivity.
Qed.

(** X17: the entry point selects the menu-bar mode exactly when some
    argument is [--gui] or [-g], wherever it stands, and takes as server
    address the last argument that does not start with a dash, or the
    built-in address when there is none; any other argument that starts
    with a dash is ignored. *)
Theorem parse_args_result (args : list string) :
  gui_mode (parse_args args) = existsb is_gui_flag args /\
  SERVER_IP (parse_args args) =
    last (filter (fun arg => negb (String.prefix "-" arg)) args) "8.146.198.121".
Proof. exact (parse_args_from args default_options). Qed.

(** ** The reconnect budget and the pace of the retries *)

Lemma streak_snoc (first : event) (es : list exn) (e : exn) :
  streak first (es ++ [e]) = streak first es ++ retry_fails e.
Proof. unfold streak. rewrite flat_map_app. reflexivity. Qed.

(** X19: with a positive limit L, a streak of L consecutive failures
    leaves the loop retrying and the next consecutive failure stops it;
    with a limit of zero or less every streak leaves it retrying. *)
Theorem budget_allows_limit_failures
  (cfg : config) (m : machine) (first : event) (e e' : exn) (es : list exn) :
  fails_with m first e -> is_Exception e = true -> is_Exception e' = true ->
  forallb is_Exception es = true ->
  reconnect_count (vars m) = 0 ->
  (MAX_RECONNECT_ATTEMPTS cfg <= 0 ->
   exists d, pc (fst (run cfg m (streak first es))) = Backoff d) /\
  (1 + Z.of_nat (length es) = MAX_RECONNECT_ATTEMPTS cfg ->
   (exists d, pc (fst (run cfg m (streak first es))) = Backoff d) /\
   pc (fst (run cfg m (streak first (es ++ [e'])))) = Exited BreakMaxAttempts).
Proof.
  intros Hf He He' Hes Hzero. split.
  - intros Hmax.
    exact (proj1 (streak_within_budget cfg m first e es Hf He Hes (or_introl Hmax))).
  - intros Hmax.
    assert (Hb : MAX_RECONNECT_ATTEMPTS cfg <= 0 \/
                 reconnect_count (vars m) + 1 + Z.of_nat (length es)
                 <= MAX_RECONNECT_ATTEMPTS cfg) by (right; lia).
    pose proof (streak_within_budget cfg m first e es Hf He Hes Hb) as ([d Hpc] & Hrc & _).
    split; [eauto |].
    rewrite streak_snoc, run_app. cbn [fst].
    pose proof (retry_fails_run cfg _ d e' Hpc He') as (Hpc' & _).
    rewrite Hpc', Hrc, Hzero.
    unfold attempts_exhausted.
    destruct (Z.ltb_spec 0 (MAX_RECONNECT_ATTEMPTS cfg)); [| lia].
    destruct (Z.ltb_spec (MAX_RECONNECT_ATTEMPTS cfg) (0 + 1 + Z.of_nat (length es) + 1));
      [reflexivity | lia].
Qed.

Lemma budget_allows_limit_failures_witness :
  let cfg := {| CHECK_INTERVAL := 1 # 2; RECONNECT_DELAY := 5;
                MAX_RECONNECT_ATTEMPTS := 2; gui_app := false |} in
  let m := fst (clipboard_sync cfg (Some "a") DISCONNECTED) in
  pc (fst (run cfg m (streak (ConnectResult (Some OtherException))
                             ([OtherException] ++ [TimeoutError]))))
  = Exited BreakMaxAttempts.
Proof.
  intros cfg m.
  assert (Hf : fails_with m (ConnectResult (Some OtherException)) OtherException)
    by (left; split; reflexivity).
  exact (proj2 (proj2 (budget_allows_limit_failures cfg m _ OtherException TimeoutError
                         [OtherException] Hf eq_refl eq_refl eq_refl eq_refl) eq_refl)).
Defined.

Lemma final_triple {A} (o : result A) (s : state) (w : list effect) :
  final (o, s, w) = s.
Proof. reflexivity. Qed.

Lemma ends_paced_handle (cfg : config) (e : exn) (s : state) (w1 : list effect) :
  0 <= reconnect_count s ->
  ends_paced cfg (outcome (handle cfg e s), final (handle cfg e s),
                  w1 ++ effects (handle cfg e s)).
Proof.
  intros Hs. unfold ends_paced, paced.
  destruct (is_Exception e) eqn:He.
  - pose proof (handle_spec cfg e s He) as (Ho & _ & Hrc & _).
    eexists. split; [exact Ho |]. cbn [pc vars]. rewrite !final_triple, Hrc.
    destruct (attempts_exhausted cfg (reconnect_count s + 1)).
    + split; [lia | exact I].
    + split; [lia |]. split; [reflexivity | lia].
  - destruct e; try discriminate He. rewrite handle_cancelled.
    eexists. split; [reflexivity |]. cbn [pc vars]. rewrite !final_triple.
    split; [exact Hs | exact I].
Qed.

Lemma ends_paced_loop_head (cfg : config) (s : state) (w1 : list effect) :
  0 <= reconnect_count s ->
  ends_paced cfg (outcome (loop_head cfg s), final (loop_head cfg s),
                  w1 ++ effects (loop_head cfg s)).
Proof.
  intros Hs. pose proof (loop_head_spec cfg s) as (Ho & Hf & _).
  eexists. split; [exact Ho |]. unfold paced. cbn [pc vars].
  rewrite !final_triple, Hf. split; [exact Hs | exact I].
Qed.

Lemma ends_paced_session_step
  (cfg : config) (t : M loop_control) (k : task_status -> location) (s : state) :
  task_frame t ->
  (forall st, exists a b c, k st = InSession a b c) ->
  0 <= reconnect_count s ->
  ends_paced cfg (session_step cfg t k s).
Proof.
  intros Hframe Hk Hs.
  destruct (session_step_cases cfg t k s Hframe)
    as (s1 & w1 & Hrc & _ & _ & [E | [E | [[E _] | [e E]]]]); rewrite E.
  - destruct (Hk Running) as (a & b & c & ->).
    eexists. split; [reflexivity |]. unfold paced. cbn [pc vars].
    rewrite !final_triple. split; [lia | exact I].
  - destruct (Hk Returned) as (a & b & c & ->).
    eexists. split; [reflexivity |]. unfold paced. cbn [pc vars].
    rewrite !final_triple. split; [lia | exact I].
  - apply ends_paced_loop_head. lia.
  - apply ends_paced_handle. lia.
Qed.

Lemma paced_step (cfg : config) (m : machine) (ev : event) :
  paced cfg m -> paced cfg (fst (step cfg m ev)).
Proof.
  intros Hp.
  assert (Hskip : paced cfg (fst (m, @nil effect))) by exact Hp.
  assert (Hweak : forall c, ends_paced cfg (c (vars m)) ->
                  paced cfg (fst (run_main c (vars m)))).
  { intros c (l & Ho & Hl). rewrite (run_main_ok c _ l Ho). exact Hl. }
  destruct Hp as [Hcount Hpc]. unfold step.
  destruct (pc m) as [| r s h | d | x] eqn:Hloc.
  - destruct ev as [[e |] | | | | |]; try exact Hskip.
    + apply Hweak. rewrite <- (eta_run (handle cfg e (vars m))).
      apply ends_paced_handle. exact Hcount.
    + pose proof (on_connected_spec cfg (vars m)) as (Ho & _ & Hrc & _).
      rewrite (run_main_ok _ _ _ Ho). unfold paced. cbn [fst pc vars].
      split; [lia | exact I].
  - assert (Hcancel : ends_paced cfg (leave_session (handle cfg CancelledError) (vars m))).
    { rewrite leave_session_run. apply ends_paced_handle. exact Hcount. }
    destruct ev as [c | i | i | i | | c]; destruct r, s, h;
      try exact Hskip; apply Hweak; try exact Hcancel;
      (apply ends_paced_session_step;
       [ first [apply receive_task_frame | apply send_task_frame
               | apply heartbeat_task_frame]
       | intros st; eauto
       | exact Hcount ]).
  - destruct ev as [c | i | i | i | | []]; try exact Hskip.
    + split; [exact Hcount | exact I].
    + apply Hweak. rewrite <- (eta_run (loop_head cfg (vars m))).
      apply ends_paced_loop_head. exact Hcount.
  - destruct ev; exact Hskip.
Qed.

(** X20: in every run of [clipboard_sync] the failure counter is never
    negative, and whenever the loop is in its backoff sleep the counter
    is at least one and the delay slept is the one the formula gives for
    that counter. *)
Theorem backoff_follows_the_counter
  (cfg : config) (initial_read : option string) (entry_state : ConnectionState)
  (evs : list event) :
  let m := fst (run cfg (fst (clipboard_sync cfg initial_read entry_state)) evs) in
  0 <= reconnect_count (vars m) /\
  (forall d, pc m = Backoff d ->
     d = reconnect_delay cfg (reconnect_count (vars m)) /\
     1 <= reconnect_count (vars m)).
Proof.
  assert (Hgen : forall evs m, paced cfg m -> paced cfg (fst (run cfg m evs))).
  { clear. intros evs. induction evs as [| ev evs IH]; intros m Hm; [exact Hm |].
    simpl. pose proof (paced_step cfg m ev Hm) as H1.
    destruct (step cfg m ev) as [m1 w1]. specialize (IH m1 H1).
    destruct (run cfg m1 evs) as [m2 w2]. exact IH. }
  intros m.
  assert (Hp : paced cfg m).
  { apply Hgen.
    pose proof (clipboard_sync_start cfg initial_read entry_state) as (Hpc & Hrc & _).
    split; [lia |]. rewrite Hpc. exact I. }
  destruct Hp as [H0 Hb]. split; [exact H0 |].
  intros d Hd. rewrite Hd in Hb. exact Hb.
Qed.

(** ** Start-up with nothing on the clipboard *)



(** ** A text copied between two sessions *)

Lemma world_step_current (cfg : config) (w : world) (ev : event) :
  main (fst (world_step cfg w (Current ev))) = fst (step cfg (main w) ev) /\
  snd (world_step cfg w (Current ev)) = snd (step cfg (main w) ev).
Proof.
  unfold world_step. destruct (step cfg (main w) ev) as [m' out].
  destruct (left_behind (main w) m' ev) as [[r s] h]. split; reflexivity.
Qed.

(** A session whose inbound stream raises, within the budget, leaves its
    [send] behind, with the count it had. *)
Lemma failed_session_leaves_sender
  (cfg : config) (w : world) (h : task_status) (e : exn) :
  pc (main w) = InSession Running Running h ->
  is_Exception e = true ->
  attempts_exhausted cfg (reconnect_count (vars (main w)) + 1) = false ->
  let w1 := fst (world_step cfg w (Current (ReceiveStep (IterationError e)))) in
  pc (main w1) = Backoff (reconnect_delay cfg (reconnect_count (vars (main w)) + 1)) /\
  last_clipboard (vars (main w1)) = last_clipboard (vars (main w)) /\
  left_senders w1 = left_senders w ++ [consecutive_errors (vars (main w))].
Proof.
  intros Hpc He Hbudget w1. subst w1.
  assert (Hf : fails_with (main w) (ReceiveStep (IterationError e)) e)
    by (right; eauto).
  destruct (fails_with_step cfg (main w) _ e Hf) as (w0 & _ & _ & Hstep).
  pose proof (handle_spec cfg e (vars (main w)) He) as (Ho & _ & _ & Hlc & _).
  rewrite Hbudget in Ho.
  rewrite (run_main_ok _ _ _ Ho) in Hstep. cbn [fst snd] in Hstep.
  unfold world_step. rewrite Hstep. unfold left_behind. rewrite Hpc.
  cbn [pc fst main vars left_senders running repeat].
  destruct h; cbn [fst main pc vars left_senders]; auto.
Qed.

(** The backoff sleep elapses and the connection succeeds: a new session
    starts with the snapshot as it was. *)
Lemma reconnect_keeps_snapshot (cfg : config) (m : machine) (d : Q) :
  pc m = Backoff d ->
  let m' := fst (step cfg (fst (step cfg m (SleepResult false))) (ConnectResult None)) in
  pc m' = InSession Running Running Running /\
  last_clipboard (vars m') = last_clipboard (vars m).
Proof.
  intros Hpc m'. subst m'.
  pose proof (retry_step cfg m d Hpc) as (Hpc1 & Hv1 & _).
  destruct (step cfg m (SleepResult false)) as [m1 w1]. cbn [fst snd] in *.
  unfold step. rewrite Hpc1.
  pose proof (on_connected_spec cfg (vars m1)) as (Ho & _ & _ & Hlc & _).
  rewrite (run_main_ok _ _ _ Ho). cbn [fst pc vars].
  split; [reflexivity |]. rewrite Hlc, Hv1. reflexivity.
Qed.

(** X22: a session that fails on its inbound stream leaves its [send]
    running.  A new text that this [send] reads while the loop sleeps
    before the next attempt becomes the snapshot and goes to [ws.send]
    on the connection that has just been closed; when that call fails
    the failure is only logged.  The session that follows the
    reconnection then finds the text equal to the snapshot and does not
    upload it. *)
Theorem text_read_between_sessions_is_not_uploaded
  (cfg : config) (w : world) (h : task_status) (e e' : exn) (i : poll_input) (T : string) :
  pc (main w) = InSession Running Running h ->
  is_Exception e = true ->
  attempts_exhausted cfg (reconnect_count (vars (main w)) + 1) = false ->
  reads i T -> T <> "" -> T <> last_clipboard (vars (main w)) ->
  send_result i = Some e' -> is_Exception e' = true ->
  let w1 := fst (world_step cfg w (Current (ReceiveStep (IterationError e)))) in
  let r2 := world_step cfg w1 (LeftSend (length (left_senders w)) i) in
  let w3 := fst (world_run cfg (fst r2)
                   [Current (SleepResult false); Current (ConnectResult None)]) in
  (exists d, pc (main w1) = Backoff d) /\
  left_senders w1 = left_senders w ++ [consecutive_errors (vars (main w))] /\
  sends (snd r2) = [clipboard_envelope T] /\
  In (Log (LogSendFailed e')) (snd r2) /\
  pc (main w3) = InSession Running Running Running /\
  last_clipboard (vars (main w3)) = T /\
  (forall i', reads i' T ->
     sends (effects (send_iteration cfg i' (vars (main w3)))) = []).
Proof.
  intros Hpc He Hbudget Hr Hne Hlast Hsr He' w1 r2 w3.
  pose proof (failed_session_leaves_sender cfg w h e Hpc He Hbudget) as (Hpc1 & Hlc1 & Hleft).
  fold w1 in Hpc1, Hlc1, Hleft.
  assert (Hnth : nth_error (left_senders w1) (length (left_senders w))
                 = Some (consecutive_errors (vars (main w)))).
  { rewrite Hleft, nth_error_app2, Nat.sub_diag by lia. reflexivity. }
  assert (Hlast1 : T <> last_clipboard
                          (with_consecutive_errors (consecutive_errors (vars (main w)))
                             (vars (main w1)))).
  { cbn [last_clipboard with_consecutive_errors]. rewrite Hlc1. exact Hlast. }
  pose proof (send_iteration_new cfg _ i T Hr Hne Hlast1) as [Hsd Hsnap].
  assert (Hlog : In (Log (LogSendFailed e'))
                    (effects (send_iteration cfg i
                       (with_consecutive_errors (consecutive_errors (vars (main w)))
                          (vars (main w1)))))).
  { clear Hsd Hsnap. revert Hlast1.
    generalize (with_consecutive_errors
                  (consecutive_errors (vars (main w))) (vars (main w1))).
    intros s Hl.
    destruct i as [rd sr rs sl]. unfold reads in Hr. simpl in Hr, Hsr. subst rd sr.
    unfold_M. simpl. rewrite (truthy_nonempty T Hne).
    destruct (String.eqb_spec T (last_clipboard s)) as [E | _]; [contradiction |].
    simpl. rewrite He'. simpl. destruct sl; right; left; reflexivity. }
  assert (H2 : pc (main (fst r2)) = pc (main w1) /\
               last_clipboard (vars (main (fst r2))) = T /\
               sends (snd r2) = [clipboard_envelope T] /\
               In (Log (LogSendFailed e')) (snd r2)).
  { subst r2. unfold world_step. rewrite Hpc1, Hnth. cbn [event_loop_runs].
    destruct (send_iteration cfg i _) as [[o s1] out].
    unfold effects, final in *. cbn [fst snd main vars pc] in *. auto. }
  destruct H2 as (Hpc2 & Hlc2 & Hsd2 & Hlog2). rewrite Hpc1 in Hpc2.
  assert (H3 : pc (main w3) = InSession Running Running Running /\
               last_clipboard (vars (main w3)) = T).
  { subst w3. cbn [world_run].
    pose proof (world_step_current cfg (fst r2) (SleepResult false)) as [Ha _].
    destruct (world_step cfg (fst r2) (Current (SleepResult false))) as [wa outa].
    cbn [fst] in Ha.
    pose proof (world_step_current cfg wa (ConnectResult None)) as [Hb _].
    destruct (world_step cfg wa (Current (ConnectResult None))) as [wb outb].
    cbn [fst] in *. rewrite Hb, Ha, <- Hlc2.
    exact (reconnect_keeps_snapshot cfg (main (fst r2)) _ Hpc2). }
  destruct H3 as [Hpc3 Hlc3].
  split; [eauto |]. split; [exact Hleft |]. split; [exact Hsd2 |]. split; [exact Hlog2 |].
  split; [exact Hpc3 |]. split; [exact Hlc3 |].
  intros i' Hr'. apply send_iteration_same. unfold reads. rewrite Hlc3. exact Hr'.
Qed.

Lemma text_read_between_sessions_is_not_uploaded_witness :
  let w := fst (world_run default_config
                  (world_start (fst (clipboard_sync default_config (Some "a") DISCONNECTED)))
                  [Current (ConnectResult None)]) in
  let i := {| clipboard_read := Some "b"; send_result := Some OtherException;
              recover_sleep := false; interval_sleep := false |} in
  let again := {| clipboard_read := Some "b"; send_result := None;
                  recover_sleep := false; interval_sleep := false |} in
  let r := world_run default_config w
             [Current (ReceiveStep (IterationError OtherException)); LeftSend 0 i;
              Current (SleepResult false); Current (ConnectResult None)] in
  sends (snd r) = [clipboard_envelope "b"] /\
  pc (main (fst r)) = InSession Running Running Running /\
  sends (effects (send_iteration default_config again (vars (main (fst r))))) = [].
Proof.
  intros w i again r.
  split; [reflexivity |].
  assert (Hne : "b" <> "") by (intros H; discriminate H).
  assert (Hlast : "b" <> last_clipboard (vars (main w))) by (intros H; discriminate H).
  pose proof (text_read_between_sessions_is_not_uploaded default_config w Running
                OtherException OtherException i "b"
                eq_refl eq_refl eq_refl eq_refl Hne Hlast eq_refl eq_refl)
    as (_ & _ & _ & _ & H5 & _ & H7).
  split; [exact H5 | exact (H7 again eq_refl)].
Defined.
